(** * therapy_aid_tool.video_parser: a shallow embedding of [VideoParser]

    The development follows [src/therapy_aid_tool/video_parser.py]:
    the Python run-time pieces the module relies on (exceptions, numbers,
    [defaultdict], [itertools.groupby], [max]/[min] on lists), the
    [BBox] value the parser handles, then [bboxes], [closeness],
    [interactions] and [interactions_statistics], and last the properties
    of each. *)

From Stdlib Require Import PrimFloat ZArith.
From Stdlib Require Uint63.
From stdpp Require Import base option list list_numbers gmap strings.

Local Open Scope string_scope.
Local Open Scope list_scope.
Local Open Scope Z_scope.

(** ** Python run-time model *)

Module Py.

(** An exception, by its type and the message CPython attaches to it. *)
Inductive exn : Type :=
| TypeError (msg : string)
| IndexError (msg : string)
| KeyError (key : string)
| ZeroDivisionError (msg : string)
| ValueError (msg : string).

(** A computation either returns or raises. *)
Inductive result (A : Type) : Type :=
| Ok (a : A)
| Raise (e : exn).
Arguments Ok {A} a.
Arguments Raise {A} e.

Definition bind {A B : Type} (m : result A) (k : A -> result B) : result B :=
  match m with
  | Ok a => k a
  | Raise e => Raise e
  end.

#[global] Instance result_ret : MRet result := fun A a => Ok a.
#[global] Instance result_bind : MBind result := fun A B k m => bind m k.

(** The values stored in a statistics record: the type objects [int] and
    [float] the record is initialised with, [None], an [int] or a
    [float] (IEEE 754 binary64). *)
Inductive value : Type :=
| VType (name : string)
| VNone
| VInt (n : Z)
| VFloat (x : float).

(** [float(n)].  [len] never exceeds [sys.maxsize = 2^63 - 1], the range
    on which the primitive conversion is the correctly rounded one. *)
Definition float_of_int (n : Z) : float :=
  PrimFloat.of_uint63 (Uint63.of_Z n).

(** [n * x] for an [int] n and a [float] x. *)
Definition int_mul_float (n : Z) (x : float) : float :=
  PrimFloat.mul (float_of_int n) x.

(** [n / x] for an [int] n and a [float] x. *)
Definition int_truediv_float (n : Z) (x : float) : result float :=
  if PrimFloat.eqb x PrimFloat.zero
  then Raise (ZeroDivisionError "float division by zero")
  else Ok (PrimFloat.div (float_of_int n) x).

(** [x / n] for a [float] x and an [int] n; [float(n)] is zero exactly
    when n is. *)
Definition float_truediv_int (x : float) (n : Z) : result float :=
  if n =? 0
  then Raise (ZeroDivisionError "float division by zero")
  else Ok (PrimFloat.div x (float_of_int n)).

(** [len(l)]. *)
Definition len {A : Type} (l : list A) : Z := Z.of_nat (length l).

(** [bool] is a subclass of [int]: [True == 1] and [False == 0]. *)
Definition int_of_bool (b : bool) : Z := if b then 1 else 0.

Definition eq_int (b : bool) (n : Z) : bool := int_of_bool b =? n.

(** [l.count(n)]. *)
Definition count (l : list bool) (n : Z) : Z :=
  len (filter (fun b => eq_int b n = true) l).

(** [l[i]] for a non-negative index. *)
Definition getitem {A : Type} (l : list A) (i : nat) : result A :=
  match l !! i with
  | Some a => Ok a
  | None => Raise (IndexError "list index out of range")
  end.

(** [defaultdict(list)]: a missing key reads as the empty list. *)
Definition dd_get {A : Type} (d : gmap string (list A)) (k : string) : list A :=
  default [] (d !! k).

(** [d[k].append(x)]. *)
Definition dd_append {A : Type} (d : gmap string (list A)) (k : string) (x : A)
  : gmap string (list A) :=
  <[k := dd_get d k ++ [x]]> d.

(** [itertools.groupby(l)]: the maximal blocks of equal consecutive
    elements, each with its key. *)
Fixpoint groupby (l : list bool) : list (bool * list bool) :=
  match l with
  | [] => []
  | x :: l' =>
      match groupby l' with
      | (k, g) :: rest =>
          if Bool.eqb x k then (k, x :: g) :: rest
          else (x, [x]) :: (k, g) :: rest
      | [] => [(x, [x])]
      end
  end.

(** [a < b] on lists: the first differing position decides, otherwise
    the shorter list is the smaller. *)
Fixpoint list_lt (a b : list bool) : bool :=
  match a, b with
  | [], [] => false
  | [], _ :: _ => true
  | _ :: _, [] => false
  | x :: a', y :: b' =>
      if Bool.eqb x y then list_lt a' b'
      else int_of_bool x <? int_of_bool y
  end.

(** [max(ls)]: the first maximal item. *)
Definition max (ls : list (list bool)) : result (list bool) :=
  match ls with
  | [] => Raise (ValueError "max() arg is an empty sequence")
  | x :: xs => Ok (fold_left (fun m item => if list_lt m item then item else m) xs x)
  end.

(** [min(ls)]: the first minimal item. *)
Definition min (ls : list (list bool)) : result (list bool) :=
  match ls with
  | [] => Raise (ValueError "min() arg is an empty sequence")
  | x :: xs => Ok (fold_left (fun m item => if list_lt item m then item else m) xs x)
  end.

(** [for x in xs: body], threading the mutated state; an exception
    leaves the loop at once. *)
Fixpoint for_each {A S : Type} (body : S -> A -> result S) (xs : list A) (s : S)
  : result S :=
  match xs with
  | [] => Ok s
  | x :: xs' => s' ← body s x; for_each body xs' s'
  end.

(** [range(n)]: empty when n is not positive. *)
Definition range (n : Z) : list nat := seq 0 (Z.to_nat n).

(** Truth value of a list. *)
Definition truthy {A : Type} (l : list A) : bool :=
  match l with
  | [] => false
  | _ :: _ => true
  end.

End Py.

Import Py.

(** ** [therapy_aid_tool.model_inference.BBox] *)

Module ModelInference.

(** Modelled from the spec: the class [BBox] of
    [therapy_aid_tool.model_inference], which [video_parser] imports.
    A bounding box is either the distinguished absent value or four
    corner coordinates with a confidence score and a class identifier. *)
Inductive BBox : Type :=
| Absent
| Box (x1 y1 x2 y2 : float) (conf : float) (cls : Z).

(** Modelled from the spec: [is_present] of [BBox], which is also its
    truth value: true iff the box is not the absent value, whatever
    its confidence. *)
Definition is_present (b : BBox) : bool :=
  match b with
  | Absent => false
  | Box _ _ _ _ _ _ => true
  end.

(** [min(a, b)] and [max(a, b)] on floats. *)
Definition fmin (a b : float) : float := if PrimFloat.ltb b a then b else a.
Definition fmax (a b : float) : float := if PrimFloat.ltb a b then b else a.

(** Modelled from the spec: area of a box and of the intersection of
    two boxes, which [niou] of [BBox] divides. *)
Definition area (x1 y1 x2 y2 : float) : float :=
  PrimFloat.mul (PrimFloat.sub x2 x1) (PrimFloat.sub y2 y1).

Definition intersection_area (ax1 ay1 ax2 ay2 bx1 by1 bx2 by2 : float) : float :=
  let w := fmax PrimFloat.zero (PrimFloat.sub (fmin ax2 bx2) (fmax ax1 bx1)) in
  let h := fmax PrimFloat.zero (PrimFloat.sub (fmin ay2 by2) (fmax ay1 by1)) in
  PrimFloat.mul w h.

(** Modelled from the spec: the clamp of [niou] to the unit interval. *)
Definition clamp01 (x : float) : float := fmax PrimFloat.zero (fmin PrimFloat.one x).

(** Modelled from the spec: [niou] of [BBox], the intersection area
    over the smaller of the two areas, clamped to [0, 1], and 0.0 when a
    box is absent or an area is zero. *)
Definition niou (a b : BBox) : float :=
  match a, b with
  | Box ax1 ay1 ax2 ay2 _ _, Box bx1 by1 bx2 by2 _ _ =>
      let area_a := area ax1 ay1 ax2 ay2 in
      let area_b := area bx1 by1 bx2 by2 in
      if PrimFloat.eqb area_a PrimFloat.zero || PrimFloat.eqb area_b PrimFloat.zero
      then PrimFloat.zero
      else clamp01 (PrimFloat.div (intersection_area ax1 ay1 ax2 ay2 bx1 by1 bx2 by2)
                                  (fmin area_a area_b))
  | _, _ => PrimFloat.zero
  end.

(** The same box with its confidence replaced. *)
Definition with_conf (f : float -> float) (b : BBox) : BBox :=
  match b with
  | Absent => Absent
  | Box x1 y1 x2 y2 conf cls => Box x1 y1 x2 y2 (f conf) cls
  end.

End ModelInference.

Import ModelInference.

(** ** [VideoParser] *)

(** The attributes of a parser besides the capture, which only [bboxes]
    reads and which is threaded through it explicitly. *)
Record VideoParser : Type := mk_VideoParser {
  total_frames : Z;
  fps : float;
  n_classes : Z;
  bbs : gmap string (list BBox)
}.

(** What [cv2.VideoCapture] gives: the declared frame count and rate, and
    the frames it will deliver, in order. *)
Record Capture (frame : Type) : Type := mk_Capture {
  frame_count : Z;
  frame_rate : float;
  frames : list frame
}.
Arguments mk_Capture {frame} _ _ _.
Arguments frame_count {frame} _.
Arguments frame_rate {frame} _.
Arguments frames {frame} _.

(** The message of the [TypeError] raised by subscripting [None]. *)
Definition exhausted_message : string := "'NoneType' object is not subscriptable".

Section Collector.

(** Pixel data of one frame, the raw predictions of the detector,
    [preds_from_torch_results(model(frame[:, :, ::-1], size=MODEL_SIZE), n_classes)]
    and the constructor [BBox(pred)]. *)
Variable frame : Type.
Variable raw_pred : Type.
Variable predict : Z -> frame -> list raw_pred.
Variable mk_BBox : raw_pred -> BBox.

(** [cap.read()]: the next frame, or [None] once the source is exhausted. *)
Definition read (cap : list frame) : option frame * list frame :=
  match cap with
  | [] => (None, [])
  | f :: cap' => (Some f, cap')
  end.

(** [frame[:, :, ::-1]]. *)
Definition subscript (fr : option frame) : result frame :=
  match fr with
  | Some f => Ok f
  | None => Raise (TypeError exhausted_message)
  end.

(** One iteration of the loop of [bboxes] (lines 58-68): the state is the
    capture and the table under construction. *)
Definition bboxes_body (n_classes : Z)
    (st : list frame * gmap string (list BBox)) (i : nat)
  : result (list frame * gmap string (list BBox)) :=
  let '(cap, bbs) := st in
  let '(fr, cap) := read cap in
  pixels ← subscript fr;
  let preds := predict n_classes pixels in
  p0 ← getitem preds 0;
  let bbs := dd_append bbs "td" (mk_BBox p0) in
  p1 ← getitem preds 1;
  let bbs := dd_append bbs "ct" (mk_BBox p1) in
  p2 ← getitem preds 2;
  let bbs := dd_append bbs "pm" (mk_BBox p2) in
  p3 ← getitem preds 3;
  let bbs := dd_append bbs "td_ct_interaction" (mk_BBox p3) in
  p4 ← getitem preds 4;
  let bbs := dd_append bbs "td_pm_interaction" (mk_BBox p4) in
  p5 ← getitem preds 5;
  let bbs := dd_append bbs "ct_pm_interaction" (mk_BBox p5) in
  Ok (cap, bbs).

(** [VideoParser.bboxes] (lines 54-70). *)
Definition bboxes (total_frames n_classes : Z) (cap : list frame)
  : result (gmap string (list BBox)) :=
  st ← for_each (bboxes_body n_classes) (range total_frames) (cap, ∅);
  Ok st.2.

(** [VideoParser.__init__] (lines 16-21): an exception of [bboxes] leaves
    no parser behind. *)
Definition init (video : Capture frame) (n_classes : Z) : result VideoParser :=
  let total_frames := frame_count video in
  let fps := frame_rate video in
  bbs ← bboxes total_frames n_classes (frames video);
  Ok (mk_VideoParser total_frames fps n_classes bbs).

End Collector.

(** One iteration of the loop of [closeness] (lines 101-103). *)
Definition closeness_body (bbs : gmap string (list BBox))
    (closeness : gmap string (list float)) (idx : nat) : result (gmap string (list float)) :=
  td ← getitem (dd_get bbs "td") idx;
  ct ← getitem (dd_get bbs "ct") idx;
  let closeness := dd_append closeness "td_ct" (niou td ct) in
  td ← getitem (dd_get bbs "td") idx;
  pm ← getitem (dd_get bbs "pm") idx;
  let closeness := dd_append closeness "td_pm" (niou td pm) in
  ct ← getitem (dd_get bbs "ct") idx;
  pm ← getitem (dd_get bbs "pm") idx;
  let closeness := dd_append closeness "ct_pm" (niou ct pm) in
  Ok closeness.

(** [VideoParser.closeness] (lines 97-105). *)
Definition closeness (self : VideoParser) : result (gmap string (list float)) :=
  for_each (closeness_body (bbs self)) (range (total_frames self)) ∅.

(** One iteration of the loop of [interactions] (lines 133-138);
    [True if b else False] takes the truth value of the box. *)
Definition interactions_body (bbs : gmap string (list BBox))
    (interactions : gmap string (list bool)) (idx : nat) : result (gmap string (list bool)) :=
  b ← getitem (dd_get bbs "td_ct_interaction") idx;
  let interactions := dd_append interactions "td_ct" (if is_present b then true else false) in
  b ← getitem (dd_get bbs "td_pm_interaction") idx;
  let interactions := dd_append interactions "td_pm" (if is_present b then true else false) in
  b ← getitem (dd_get bbs "ct_pm_interaction") idx;
  let interactions := dd_append interactions "ct_pm" (if is_present b then true else false) in
  Ok interactions.

(** [VideoParser.interactions] (lines 129-140). *)
Definition interactions (self : VideoParser) : result (gmap string (list bool)) :=
  for_each (interactions_body (bbs self)) (range (total_frames self)) ∅.

(** *** [VideoParser.interactions_statistics] *)

Module Statistics.

(** One inner dictionary of [statistics] (lines 162-166). *)
Record stats : Type := mk_stats {
  n_interactions : value;
  total_time : value;
  min_time : value;
  max_time : value;
  mean_time : value
}.

Definition placeholder : stats :=
  mk_stats (VType "int") (VType "float") (VType "float") (VType "float") (VType "float").

Definition initial_statistics : gmap string stats :=
  <["td_ct" := placeholder]> (<["td_pm" := placeholder]> (<["ct_pm" := placeholder]> ∅)).

(** State of the loop over the groups (lines 173-175). *)
Record scan : Type := mk_scan {
  groups_of_interaction : list (list bool);
  idxs : list (Z * Z);
  count_aux : Z
}.

(** One iteration of the loop over the groups (lines 176-183). *)
Definition scan_step (s : scan) (kg : bool * list bool) : scan :=
  let '(k, group) := kg in
  let count := count_aux s + len group in
  if eq_int k 1
  then
    let idx1 := count - len group in
    let idx2 := count in
    mk_scan (groups_of_interaction s ++ [group]) (idxs s ++ [(idx1, idx2)]) count
  else mk_scan (groups_of_interaction s) (idxs s) count.

Definition scan_groups (interaction : list bool) : scan :=
  fold_left scan_step (groupby interaction) (mk_scan [] [] 0).

(** The five metrics of one series (lines 170-192): the body of the loop
    over the items, up to the stores. *)
Definition metrics (frame_time : float) (interaction : list bool) : result stats :=
  let groups_of_interaction := groups_of_interaction (scan_groups interaction) in
  if truthy groups_of_interaction then
    let n_interactions := len groups_of_interaction in
    let total_time := int_mul_float (count interaction 1) frame_time in
    mean_time ← float_truediv_int total_time (len groups_of_interaction);
    longest ← Py.max groups_of_interaction;
    let max_time := int_mul_float (len longest) frame_time in
    shortest ← Py.min groups_of_interaction;
    let min_time := int_mul_float (len shortest) frame_time in
    Ok (mk_stats (VInt n_interactions) (VFloat total_time) (VFloat min_time)
                 (VFloat max_time) (VFloat mean_time))
  else Ok (mk_stats VNone VNone VNone VNone VNone).

(** [statistics[key][field] = v]: the outer lookup raises on a key the
    dictionary does not have. *)
Definition set_field (statistics : gmap string stats) (key : string)
    (upd : stats -> stats) : result (gmap string stats) :=
  match statistics !! key with
  | Some d => Ok (<[key := upd d]> statistics)
  | None => Raise (KeyError key)
  end.

(** The five stores of lines 194-198. *)
Definition store (statistics : gmap string stats) (key : string) (m : stats)
  : result (gmap string stats) :=
  s1 ← set_field statistics key
         (fun d => mk_stats (n_interactions m) (total_time d) (min_time d) (max_time d) (mean_time d));
  s2 ← set_field s1 key
         (fun d => mk_stats (n_interactions d) (total_time m) (min_time d) (max_time d) (mean_time d));
  s3 ← set_field s2 key
         (fun d => mk_stats (n_interactions d) (total_time d) (min_time m) (max_time d) (mean_time d));
  s4 ← set_field s3 key
         (fun d => mk_stats (n_interactions d) (total_time d) (min_time d) (max_time m) (mean_time d));
  set_field s4 key
         (fun d => mk_stats (n_interactions d) (total_time d) (min_time d) (max_time d) (mean_time m)).

(** The loop over [interactions.items()], in insertion order. *)
Fixpoint statistics_loop (frame_time : float) (items : list (string * list bool))
    (statistics : gmap string stats) : result (gmap string stats) :=
  match items with
  | [] => Ok statistics
  | (key, interaction) :: rest =>
      m ← metrics frame_time interaction;
      statistics' ← store statistics key m;
      statistics_loop frame_time rest statistics'
  end.

(** [VideoParser.interactions_statistics] (lines 160-200); the mapping is
    given by its items, in insertion order. *)
Definition interactions_statistics (self : VideoParser)
    (interactions : list (string * list bool)) : result (gmap string stats) :=
  frame_time ← int_truediv_float 1 (fps self);
  statistics_loop frame_time interactions initial_statistics.

End Statistics.

Import Statistics.

(** ** Episodes, as the specification words them *)

Module Episodes.

(** Lengths of the maximal runs of [true], in order of appearance: a run
    is open while [cur] is positive and is closed by the next [false]
    or by the end of the series. *)
Fixpoint runs_from (cur : nat) (series : list bool) : list nat :=
  match series with
  | [] => match cur with O => [] | S _ => [cur] end
  | true :: rest => runs_from (S cur) rest
  | false :: rest =>
      match cur with
      | O => runs_from 0 rest
      | S _ => cur :: runs_from 0 rest
      end
  end.

Definition true_runs (series : list bool) : list nat := runs_from 0 series.

(** Number of [true] frames. *)
Definition true_frames (series : list bool) : nat :=
  length (filter (fun b => b = true) series).

Definition is_shortest (n : nat) (runs : list nat) : Prop :=
  n ∈ runs ∧ ∀ m, m ∈ runs → (n <= m)%nat.

Definition is_longest (n : nat) (runs : list nat) : Prop :=
  n ∈ runs ∧ ∀ m, m ∈ runs → (m <= n)%nat.

(** Total active time computed episode by episode: the sum, in order,
    of (run length times frame duration).  With two episodes every order
    of summation gives this value. *)
Definition total_time_by_runs (frame_time : float) (series : list bool) : float :=
  fold_left PrimFloat.add
    (map (fun n => int_mul_float (Z.of_nat n) frame_time) (true_runs series))
    PrimFloat.zero.

End Episodes.

Import Episodes.

(** ** Auxiliary definitions for the proofs *)

Definition true_groups (gs : list (bool * list bool)) : list (list bool) :=
  omap (fun kg : bool * list bool => if kg.1 then Some kg.2 else None) gs.

Definition none_stats : stats := mk_stats VNone VNone VNone VNone VNone.

Definition run_metrics (frame_time : float) (series : list bool) : stats :=
  match true_runs series with
  | [] => none_stats
  | n :: ns =>
      let total := int_mul_float (Z.of_nat (true_frames series)) frame_time in
      mk_stats (VInt (len (n :: ns)))
               (VFloat total)
               (VFloat (int_mul_float (Z.of_nat (fold_left Nat.min ns n)) frame_time))
               (VFloat (int_mul_float (Z.of_nat (fold_left Nat.max ns n)) frame_time))
               (VFloat (PrimFloat.div total (float_of_int (len (n :: ns)))))
  end.

Definition pair_keys : list string := ["td_ct"; "td_pm"; "ct_pm"].

Definition frame_duration (fps : float) : float :=
  PrimFloat.div (float_of_int 1) fps.

Definition valid_fps (fps : float) : Prop :=
  PrimFloat.eqb fps PrimFloat.zero = false.

Definition valid_mapping (interactions : list (string * list bool)) : Prop :=
  NoDup interactions.*1 ∧ Forall (fun k => k ∈ pair_keys) interactions.*1.

Definition class_keys : list string :=
  ["td"; "ct"; "pm"; "td_ct_interaction"; "td_pm_interaction"; "ct_pm_interaction"].

(** Each pair-key with the interaction class [interactions] reads for it. *)
Definition interaction_classes : list (string * string) :=
  [("td_ct", "td_ct_interaction"); ("td_pm", "td_pm_interaction");
   ("ct_pm", "ct_pm_interaction")].

Definition present_at (bbs : gmap string (list BBox)) (cls : string) (idx : nat) : bool :=
  match dd_get bbs cls !! idx with
  | Some b => is_present b
  | None => false
  end.

(** The detection table with every confidence replaced. *)
Definition reconfidence (f : float -> float) (bbs : gmap string (list BBox))
  : gmap string (list BBox) :=
  (fun l : list BBox => with_conf f <$> l) <$> bbs.

(** The three interaction sequences of a parser's table are as long as
    its declared frame count. *)
Definition interaction_sequences_complete (self : VideoParser) : Prop :=
  Forall (fun kc : string * string => len (dd_get (bbs self) kc.2) = total_frames self)
         interaction_classes.

(** Reading of "the error identifies which frame index failed": the index
    of the first frame the source could not deliver can be read off the
    exception that [bboxes] raises. *)
Definition exhaustion_error_identifies_frame (frame raw_pred : Type)
    (predict : Z -> frame -> list raw_pred) (mk_BBox : raw_pred -> BBox) : Prop :=
  ∃ frame_index_of : exn -> Z,
    ∀ (video : Capture frame) (nc : Z),
      Z.of_nat (length (frames video)) < frame_count video →
      ∃ e, bboxes frame raw_pred predict mk_BBox (frame_count video) nc (frames video)
           = Raise e
           ∧ frame_index_of e = Z.of_nat (length (frames video)).

(** Sample data. *)
Definition sample_series : list bool :=
  [true; true; false; true; false; false; true; true; true].

Definition sample_parser (fps : float) : VideoParser := mk_VideoParser 0 fps 6 ∅.

Definition six_absent (n_classes : Z) (f : unit) : list BBox := replicate 6 Absent.

Definition sample_table (c1 c2 : float) (k1 k2 : Z) : gmap string (list BBox) :=
  <["td" := [Box 0 0 10 10 c1 k1]]>
    (<["ct" := [Box 5 5 15 15 c2 k2]]> (<["pm" := [Absent]]> ∅)).

Definition sample_interaction_table : gmap string (list BBox) :=
  <["td_ct_interaction" := [Box 0 0 1 1 0.5 3; Absent]]>
    (<["td_pm_interaction" := [Absent; Absent]]>
       (<["ct_pm_interaction" := [Absent; Box 2 2 4 4 0.25 5]]> ∅)).

Definition rounding_series : list bool := [true; true; false; true; true; true].

(** Each class key with the position of its prediction in the output of
    the detector (lines 63-68). *)
Definition class_positions : list (string * nat) :=
  [("td", 0%nat); ("ct", 1%nat); ("pm", 2%nat); ("td_ct_interaction", 3%nat);
   ("td_pm_interaction", 4%nat); ("ct_pm_interaction", 5%nat)].

(** [b] is the box built from the prediction at position [j] for frame [f]. *)
Definition box_of_prediction {frame raw_pred : Type}
    (predict : Z -> frame -> list raw_pred) (mk_BBox : raw_pred -> BBox)
    (nc : Z) (j : nat) (f : frame) (b : BBox) : Prop :=
  ∃ p, predict nc f !! j = Some p ∧ b = mk_BBox p.

(** Each pair-key with the two actor classes [closeness] reads for it
    (lines 101-103). *)
Definition closeness_pairs : list (string * (string * string)) :=
  [("td_ct", ("td", "ct")); ("td_pm", ("td", "pm")); ("ct_pm", ("ct", "pm"))].

Definition actor_classes : list string := ["td"; "ct"; "pm"].

Definition niou_at (bbs : gmap string (list BBox)) (a b : string) (idx : nat) : float :=
  match dd_get bbs a !! idx, dd_get bbs b !! idx with
  | Some x, Some y => niou x y
  | _, _ => PrimFloat.zero
  end.

(** The three actor sequences of a parser's table are as long as its
    declared frame count. *)
Definition actor_sequences_complete (self : VideoParser) : Prop :=
  Forall (fun cls => len (dd_get (bbs self) cls) = total_frames self) actor_classes.

Definition index_error : exn := IndexError "list index out of range".

(** [items] lists the entries of [table], each key once: what
    [table.items()] yields, in some order. *)
Definition is_listing {A : Type} (items : list (string * A)) (table : gmap string A) : Prop :=
  NoDup items.*1 ∧ Forall (fun kv => table !! kv.1 = Some kv.2) items.

(** More sample data. *)
Definition two_boxes (n_classes : Z) (f : nat) : list BBox :=
  [Box 0 0 1 1 0.5 0; Absent; Absent; Absent; Absent; Box 0 0 2 2 0.5 5].

Definition short_on_odd (n_classes : Z) (f : nat) : list BBox :=
  if Nat.even f then replicate 6 Absent else replicate 4 Absent.

Definition sample_actor_table : gmap string (list BBox) :=
  <["td" := [Box 0 0 10 10 0.5 0; Absent]]>
    (<["ct" := [Box 5 5 15 15 0.5 1; Absent]]>
       (<["pm" := [Absent; Box 1 1 2 2 0.5 2]]> ∅)).

(** [l[a:b]] for [0 <= a <= b <= len(l)]. *)
Definition slice {A : Type} (l : list A) (a b : Z) : list A :=
  take (Z.to_nat (b - a)) (drop (Z.to_nat a) l).

(** The pair of indices recorded for a chunk delimits it in the series. *)
Definition delimits (series : list bool) (ab : Z * Z) (group : list bool) : Prop :=
  0 <= ab.1 ∧ ab.2 <= len series ∧ ab.2 - ab.1 = len group ∧
  slice series ab.1 ab.2 = group.

(** ** Properties of the run-time model *)

Section GroupBy.

Lemma eq_int_1 (k : bool) : eq_int k 1 = k.
Proof. by destruct k. Qed.

Lemma groupby_blocks (l : list bool) :
  Forall (fun kg : bool * list bool => kg.2 = repeat kg.1 (length kg.2) ∧ kg.2 ≠ [])
         (groupby l).
Proof.
  induction l as [|x l IH]; simpl; [constructor|].
  destruct (groupby l) as [|[k g] rest] eqn:E.
  - repeat constructor; done.
  - apply Forall_cons in IH as [[Hg Hne] Hrest]. simpl in *.
    destruct (Bool.eqb x k) eqn:Hxk.
    + apply Bool.eqb_prop in Hxk as ->.
      constructor; [|done]. simpl. split; [by f_equal|done].
    + repeat constructor; simpl; done.
Qed.

Lemma groupby_concat (l : list bool) : concat (map snd (groupby l)) = l.
Proof.
  induction l as [|x l IH]; simpl; [done|].
  destruct (groupby l) as [|[k g] rest] eqn:E; simpl in *.
  - by rewrite <- IH.
  - destruct (Bool.eqb x k); simpl; by rewrite <- IH.
Qed.

Lemma true_groups_repeat (l : list bool) :
  true_groups (groupby l) = map (repeat true) (map length (true_groups (groupby l))).
Proof.
  pose proof (groupby_blocks l) as H.
  induction H as [|[k g] gs [Hg _] _ IH]; simpl; [done|].
  unfold true_groups in *. simpl in *. destruct k; simpl; [|done].
  by rewrite <- IH, <- Hg.
Qed.

Lemma runs_from_groupby (l : list bool) (cur : nat) :
  runs_from cur l =
    match groupby l with
    | (true, g) :: rest => (cur + length g)%nat :: map length (true_groups rest)
    | gs => match cur with O => [] | S _ => [cur] end ++ map length (true_groups gs)
    end.
Proof.
  revert cur. induction l as [|x l IH]; intros cur; simpl.
  - by destruct cur.
  - destruct x.
    + rewrite IH. destruct (groupby l) as [|[[] g] rest]; simpl;
        f_equal; lia.
    + specialize (IH 0%nat).
      assert (runs_from 0 l = map length (true_groups (groupby l))) as ->.
      { rewrite IH. by destruct (groupby l) as [|[[] g] rest]. }
      destruct (groupby l) as [|[[] g] rest]; simpl; by destruct cur.
Qed.

Lemma true_runs_groupby (l : list bool) :
  true_runs l = map length (true_groups (groupby l)).
Proof.
  unfold true_runs. rewrite runs_from_groupby.
  by destruct (groupby l) as [|[[] g] rest].
Qed.

Lemma scan_groups_of_interaction (gs : list (bool * list bool)) (s : scan) :
  groups_of_interaction (fold_left scan_step gs s)
  = groups_of_interaction s ++ true_groups gs.
Proof.
  revert s. induction gs as [|[k g] gs IH]; intros s; simpl.
  - by rewrite app_nil_r.
  - rewrite IH. unfold scan_step, true_groups. rewrite eq_int_1.
    destruct k; simpl; [|done]. by rewrite <- app_assoc.
Qed.

(** The chunks collected by the scan are the maximal runs of [true]. *)
Lemma groups_of_interaction_runs (l : list bool) :
  groups_of_interaction (scan_groups l) = map (repeat true) (true_runs l).
Proof.
  unfold scan_groups. rewrite scan_groups_of_interaction. simpl.
  rewrite true_runs_groupby. apply true_groups_repeat.
Qed.

End GroupBy.

Section Extrema.

Lemma list_lt_repeat (a b : nat) :
  list_lt (repeat true a) (repeat true b) = (a <? b)%nat.
Proof.
  revert b. induction a as [|a IH]; intros [|b]; simpl; auto.
Qed.

Lemma fold_max_repeat (ns : list nat) (n : nat) :
  fold_left (fun m item : list bool => if list_lt m item then item else m)
            (map (repeat true) ns) (repeat true n)
  = repeat true (fold_left Nat.max ns n).
Proof.
  revert n. induction ns as [|x ns IH]; intros n; simpl; [done|].
  rewrite list_lt_repeat.
  destruct (Nat.ltb_spec n x).
  - rewrite IH. do 2 f_equal. lia.
  - rewrite IH. do 2 f_equal. lia.
Qed.

Lemma fold_min_repeat (ns : list nat) (n : nat) :
  fold_left (fun m item : list bool => if list_lt item m then item else m)
            (map (repeat true) ns) (repeat true n)
  = repeat true (fold_left Nat.min ns n).
Proof.
  revert n. induction ns as [|x ns IH]; intros n; simpl; [done|].
  rewrite list_lt_repeat.
  destruct (Nat.ltb_spec x n).
  - rewrite IH. do 2 f_equal. lia.
  - rewrite IH. do 2 f_equal. lia.
Qed.

Lemma fold_max_longest (ns : list nat) (n : nat) :
  is_longest (fold_left Nat.max ns n) (n :: ns).
Proof.
  revert n. induction ns as [|x ns IH]; intros n; simpl.
  - split; [left|]. intros m Hm. apply list_elem_of_singleton in Hm. lia.
  - destruct (IH (Nat.max n x)) as [Hin Hle]. split.
    + apply elem_of_cons in Hin as [Heq|Hin].
      * rewrite Heq. destruct (Nat.max_spec n x) as [[_ ->]|[_ ->]];
          [right; left | left].
      * right; by right.
    + intros m Hm. apply elem_of_cons in Hm as [->|Hm].
      * specialize (Hle (Nat.max n x)). etrans; [|apply Hle; left]. lia.
      * apply elem_of_cons in Hm as [->|Hm].
        -- specialize (Hle (Nat.max n x)). etrans; [|apply Hle; left]. lia.
        -- apply Hle. by right.
Qed.

Lemma fold_min_shortest (ns : list nat) (n : nat) :
  is_shortest (fold_left Nat.min ns n) (n :: ns).
Proof.
  revert n. induction ns as [|x ns IH]; intros n; simpl.
  - split; [left|]. intros m Hm. apply list_elem_of_singleton in Hm. lia.
  - destruct (IH (Nat.min n x)) as [Hin Hle]. split.
    + apply elem_of_cons in Hin as [Heq|Hin].
      * rewrite Heq. destruct (Nat.min_spec n x) as [[_ ->]|[_ ->]];
          [left | right; left].
      * right; by right.
    + intros m Hm. apply elem_of_cons in Hm as [->|Hm].
      * specialize (Hle (Nat.min n x)). etrans; [apply Hle; left|]. lia.
      * apply elem_of_cons in Hm as [->|Hm].
        -- specialize (Hle (Nat.min n x)). etrans; [apply Hle; left|]. lia.
        -- apply Hle. by right.
Qed.

Lemma max_runs (n : nat) (ns : list nat) :
  Py.max (map (repeat true) (n :: ns)) = Ok (repeat true (fold_left Nat.max ns n)).
Proof. simpl. by rewrite fold_max_repeat. Qed.

Lemma min_runs (n : nat) (ns : list nat) :
  Py.min (map (repeat true) (n :: ns)) = Ok (repeat true (fold_left Nat.min ns n)).
Proof. simpl. by rewrite fold_min_repeat. Qed.

End Extrema.

Section Counting.

Lemma count_true_frames (l : list bool) : count l 1 = Z.of_nat (true_frames l).
Proof.
  unfold count, true_frames, len. do 2 f_equal.
  induction l as [|[] l IH]; simpl; [done| |].
  - rewrite !filter_cons_True by done. by f_equal.
  - rewrite !filter_cons_False by done. done.
Qed.

Lemma sum_runs_from (l : list bool) (cur : nat) :
  sum_list (runs_from cur l) = (cur + true_frames l)%nat.
Proof.
  revert cur. induction l as [|[] l IH]; intros cur; simpl.
  - destruct cur; simpl; unfold true_frames; simpl; lia.
  - rewrite IH. unfold true_frames. rewrite filter_cons_True by done. simpl. lia.
  - unfold true_frames in *. rewrite filter_cons_False by done.
    destruct cur; simpl; rewrite IH; lia.
Qed.

Lemma true_frames_sum_runs (l : list bool) :
  true_frames l = sum_list (true_runs l).
Proof. unfold true_runs. by rewrite sum_runs_from. Qed.

Lemma runs_from_positive (l : list bool) (cur : nat) :
  Forall (fun n => (0 < n)%nat) (runs_from cur l).
Proof.
  revert cur. induction l as [|[] l IH]; intros cur; simpl.
  - destruct cur; constructor; [lia|constructor].
  - apply IH.
  - destruct cur; [apply IH|]. constructor; [lia|apply IH].
Qed.

End Counting.

Section Reducer.

Lemma metrics_closed_form (frame_time : float) (l : list bool) :
  metrics frame_time l = Ok (run_metrics frame_time l).
Proof.
  unfold metrics, run_metrics. rewrite groups_of_interaction_runs.
  destruct (true_runs l) as [|n ns] eqn:E; [done|].
  change (truthy (map (repeat true) (n :: ns))) with true. cbv iota.
  replace (len (map (repeat true) (n :: ns))) with (len (n :: ns))
    by (unfold len; by rewrite length_map).
  unfold float_truediv_int.
  destruct (Z.eqb_spec (len (n :: ns)) 0) as [H0|_].
  { unfold len in H0. simpl in H0. lia. }
  rewrite max_runs, min_runs. unfold mbind, result_bind, bind.
  unfold len at 2 3. rewrite !repeat_length, count_true_frames. done.
Qed.

Lemma store_ok (statistics : gmap string stats) (key : string) (d m : stats) :
  statistics !! key = Some d → store statistics key m = Ok (<[key := m]> statistics).
Proof.
  intros Hd. unfold store, set_field, mbind, result_bind, bind.
  rewrite Hd. repeat (rewrite lookup_insert_eq, insert_insert_eq).
  by destruct m.
Qed.

Lemma store_missing (statistics : gmap string stats) (key : string) (m : stats) :
  statistics !! key = None → store statistics key m = Raise (KeyError key).
Proof. intros Hd. unfold store, set_field, mbind, result_bind, bind. by rewrite Hd. Qed.

Lemma statistics_loop_ok (frame_time : float) (items : list (string * list bool))
    (statistics : gmap string stats) :
  (∀ k, k ∈ items.*1 → is_Some (statistics !! k)) →
  ∃ statistics',
    statistics_loop frame_time items statistics = Ok statistics' ∧
    (∀ k, k ∉ items.*1 → statistics' !! k = statistics !! k) ∧
    (NoDup items.*1 → ∀ k l, (k, l) ∈ items →
       statistics' !! k = Some (run_metrics frame_time l)).
Proof.
  revert statistics. induction items as [|[key l] items IH]; intros statistics Hkeys.
  - exists statistics. split; [done|]. split; [done|].
    intros _ k l Hin. by apply elem_of_nil in Hin.
  - simpl. rewrite metrics_closed_form. unfold mbind, result_bind, bind.
    destruct (Hkeys key) as [d Hd]; [left|].
    rewrite (store_ok _ _ d) by done.
    destruct (IH (<[key := run_metrics frame_time l]> statistics)) as (st' & Hrun & Hout & Hin).
    { intros k Hk. destruct (decide (key = k)) as [->|Hne].
      - rewrite lookup_insert_eq. by eexists.
      - rewrite lookup_insert_ne by done. apply Hkeys. by right. }
    exists st'. split; [done|]. split.
    + intros k Hk. apply not_elem_of_cons in Hk as [Hne Hk].
      rewrite Hout by done. by rewrite lookup_insert_ne.
    + intros Hnd k l' Hkl. apply NoDup_cons in Hnd as [Hfresh Hnd].
      apply elem_of_cons in Hkl as [Heq|Hkl].
      * injection Heq as -> ->. rewrite Hout by done. by rewrite lookup_insert_eq.
      * by apply Hin.
Qed.

Lemma statistics_loop_key_error (frame_time : float) (items : list (string * list bool))
    (statistics : gmap string stats) :
  (∃ k, k ∈ items.*1 ∧ statistics !! k = None) →
  ∃ k, k ∈ items.*1 ∧ statistics !! k = None ∧
       statistics_loop frame_time items statistics = Raise (KeyError k).
Proof.
  revert statistics. induction items as [|[key l] items IH]; intros statistics (k & Hk & Hnone).
  - by apply elem_of_nil in Hk.
  - simpl. rewrite metrics_closed_form. unfold mbind, result_bind, bind.
    destruct (statistics !! key) as [d|] eqn:Hd.
    + rewrite (store_ok _ _ d) by done.
      assert (key ≠ k) as Hne by congruence.
      apply elem_of_cons in Hk as [Heq|Hk]; [simpl in Heq; congruence|].
      destruct (IH (<[key := run_metrics frame_time l]> statistics)) as (k' & Hk' & Hnone' & Hrun).
      { exists k. split; [done|]. by rewrite lookup_insert_ne. }
      exists k'. split; [by right|]. split; [|done].
      destruct (decide (key = k')) as [->|Hne'].
      * by rewrite lookup_insert_eq in Hnone'.
      * by rewrite lookup_insert_ne in Hnone'.
    + exists key. split; [left|]. split; [done|]. by rewrite store_missing.
Qed.

Lemma initial_statistics_keys (k : string) :
  is_Some (initial_statistics !! k) ↔ k ∈ pair_keys.
Proof.
  unfold pair_keys. rewrite !elem_of_cons, elem_of_nil. split.
  - unfold initial_statistics. rewrite !lookup_insert, lookup_empty.
    intros Hsome. repeat case_decide; subst; auto.
    by destruct Hsome.
  - intros [->|[->|[->|[]]]]; by eexists.
Qed.

Lemma int_truediv_float_ok (fps : float) :
  valid_fps fps → int_truediv_float 1 fps = Ok (frame_duration fps).
Proof. unfold valid_fps, int_truediv_float. by intros ->. Qed.

(** On a mapping over the three pair-keys the call returns, and each
    key holds the metrics of its series. *)
Lemma interactions_statistics_entry (self : VideoParser)
    (interactions : list (string * list bool)) (key : string) (series : list bool) :
  valid_fps (fps self) → valid_mapping interactions → (key, series) ∈ interactions →
  ∃ statistics,
    interactions_statistics self interactions = Ok statistics ∧
    statistics !! key = Some (run_metrics (frame_duration (fps self)) series).
Proof.
  intros Hfps [Hnd Hkeys] Hin. unfold interactions_statistics.
  rewrite int_truediv_float_ok by done. unfold mbind, result_bind, bind.
  destruct (statistics_loop_ok (frame_duration (fps self)) interactions initial_statistics)
    as (st & Hrun & _ & Hentry).
  { intros k Hk. apply initial_statistics_keys.
    rewrite Forall_forall in Hkeys. by apply Hkeys. }
  exists st. split; [done|]. by apply Hentry.
Qed.

End Reducer.

(** ** Properties of [bboxes] *)

Section DefaultDict.

Context {A : Type}.

Lemma dd_get_append_eq (d : gmap string (list A)) (k : string) (x : A) :
  dd_get (dd_append d k x) k = dd_get d k ++ [x].
Proof. unfold dd_append, dd_get at 1. by rewrite lookup_insert_eq. Qed.

Lemma dd_get_append_ne (d : gmap string (list A)) (k k' : string) (x : A) :
  k ≠ k' → dd_get (dd_append d k x) k' = dd_get d k'.
Proof. intros Hne. unfold dd_append, dd_get at 1. by rewrite lookup_insert_ne. Qed.

Lemma dd_get_empty (k : string) : dd_get (∅ : gmap string (list A)) k = [].
Proof. unfold dd_get. by rewrite lookup_empty. Qed.

End DefaultDict.

Ltac dd_simpl :=
  repeat first [ rewrite dd_get_append_eq
               | rewrite dd_get_append_ne by discriminate ].

Section CollectorProperties.

Variable frame : Type.
Variable raw_pred : Type.
Variable predict : Z -> frame -> list raw_pred.
Variable mk_BBox : raw_pred -> BBox.

Local Abbreviation body := (bboxes_body frame raw_pred predict mk_BBox).

Lemma bboxes_body_exhausted (nc : Z) (bbs : gmap string (list BBox)) (i : nat) :
  body nc ([], bbs) i = Raise (TypeError exhausted_message).
Proof. reflexivity. Qed.

Lemma bboxes_body_ok (nc : Z) (f : frame) (cap : list frame)
    (bbs : gmap string (list BBox)) (i : nat) :
  (6 <= length (predict nc f))%nat →
  ∃ bbs', body nc (f :: cap, bbs) i = Ok (cap, bbs').
Proof.
  intros Hlen. unfold bboxes_body. simpl.
  destruct (predict nc f) as [|p0 [|p1 [|p2 [|p3 [|p4 [|p5 ps]]]]]];
    simpl in Hlen; try lia.
  eexists. reflexivity.
Qed.

Lemma bboxes_body_inv (nc : Z) (cap cap' : list frame)
    (bbs bbs' : gmap string (list BBox)) (i : nat) :
  body nc (cap, bbs) i = Ok (cap', bbs') →
  (∃ f, cap = f :: cap') ∧
  ∀ k, k ∈ class_keys → length (dd_get bbs' k) = S (length (dd_get bbs k)).
Proof.
  unfold bboxes_body. destruct cap as [|f cap]; simpl; [done|].
  destruct (predict nc f) as [|p0 [|p1 [|p2 [|p3 [|p4 [|p5 ps]]]]]];
    simpl; try done.
  intros [= <- <-]. split; [by eexists|].
  intros k Hk. unfold class_keys in Hk.
  rewrite !elem_of_cons, elem_of_nil in Hk.
  destruct Hk as [->|[->|[->|[->|[->|[->|[]]]]]]];
    dd_simpl; rewrite length_app; simpl; lia.
Qed.

Lemma bboxes_loop_lengths (nc : Z) (xs : list nat) (cap cap' : list frame)
    (bbs bbs' : gmap string (list BBox)) :
  for_each (body nc) xs (cap, bbs) = Ok (cap', bbs') →
  ∀ k, k ∈ class_keys →
    length (dd_get bbs' k) = (length (dd_get bbs k) + length xs)%nat.
Proof.
  revert cap bbs. induction xs as [|x xs IH]; intros cap bbs; cbn [for_each length].
  - intros [= <- <-] k _. lia.
  - unfold mbind, result_bind, bind.
    destruct (body nc (cap, bbs) x) as [[cap1 bbs1]|e] eqn:Hbody; [|done].
    intros Hrest k Hk.
    rewrite (IH _ _ Hrest k Hk).
    apply bboxes_body_inv in Hbody as [_ Hlen]. rewrite (Hlen k Hk). lia.
Qed.

Lemma bboxes_loop_ok (nc : Z) (xs : list nat) (cap : list frame)
    (bbs : gmap string (list BBox)) :
  (length xs <= length cap)%nat →
  Forall (fun f => (6 <= length (predict nc f))%nat) cap →
  ∃ st, for_each (body nc) xs (cap, bbs) = Ok st.
Proof.
  revert cap bbs. induction xs as [|x xs IH]; intros cap bbs Hlen Hsix; cbn [for_each].
  - by eexists.
  - destruct cap as [|f cap]; simpl in Hlen; [lia|].
    apply Forall_cons in Hsix as [Hf Hsix].
    destruct (bboxes_body_ok nc f cap bbs x Hf) as [bbs' ->].
    unfold mbind, result_bind, bind. apply IH; [lia|done].
Qed.

Lemma bboxes_loop_exhausted (nc : Z) (xs : list nat) (cap : list frame)
    (bbs : gmap string (list BBox)) :
  (length cap < length xs)%nat →
  ∃ e, for_each (body nc) xs (cap, bbs) = Raise e ∧
       (Forall (fun f => (6 <= length (predict nc f))%nat) cap →
        e = TypeError exhausted_message).
Proof.
  revert cap bbs. induction xs as [|x xs IH]; intros cap bbs Hlen;
    cbn [for_each length] in *; [lia|].
  unfold mbind, result_bind, bind.
  destruct cap as [|f cap].
  - rewrite bboxes_body_exhausted. by eexists.
  - destruct (body nc (f :: cap, bbs) x) as [[cap1 bbs1]|e] eqn:Hbody.
    + pose proof Hbody as Hinv. apply bboxes_body_inv in Hinv as [[f' [= <- <-]] _].
      unfold mbind, result_bind, bind.
      destruct (IH cap bbs1) as (e & He & Hty); [simpl in Hlen; lia|].
      exists e. split; [done|]. intros Hsix. apply Hty.
      by apply Forall_cons in Hsix as [_ ?].
    + exists e. split; [done|]. intros Hsix.
      apply Forall_cons in Hsix as [Hf _].
      destruct (bboxes_body_ok nc f cap bbs x Hf) as [bbs' Hok]. congruence.
Qed.

Lemma length_range (n : Z) : length (range n) = Z.to_nat n.
Proof. unfold range. apply length_seq. Qed.

End CollectorProperties.

(** ** Properties of [interactions] *)

Section InteractionsProperties.

Lemma for_each_ext {A S : Type} (f g : S -> A -> result S) (xs : list A) (s : S) :
  (∀ s x, f s x = g s x) → for_each f xs s = for_each g xs s.
Proof.
  intros Hfg. revert s. induction xs as [|x xs IH]; intros s; cbn [for_each]; [done|].
  rewrite Hfg. unfold mbind, result_bind, bind. by destruct (g s x).
Qed.

Lemma bool_if_id (b : bool) : (if b then true else false) = b.
Proof. by destruct b. Qed.

Lemma getitem_present (bbs : gmap string (list BBox)) (cls : string) (idx : nat) :
  (idx < length (dd_get bbs cls))%nat →
  ∃ b, getitem (dd_get bbs cls) idx = Ok b ∧ present_at bbs cls idx = is_present b.
Proof.
  intros Hlt. apply lookup_lt_is_Some_2 in Hlt as [b Hb].
  exists b. unfold getitem, present_at. by rewrite Hb.
Qed.

Lemma interactions_body_ok (bbs : gmap string (list BBox))
    (acc : gmap string (list bool)) (idx : nat) :
  (∀ key cls, (key, cls) ∈ interaction_classes → (idx < length (dd_get bbs cls))%nat) →
  interactions_body bbs acc idx
  = Ok (dd_append
          (dd_append
             (dd_append acc "td_ct" (present_at bbs "td_ct_interaction" idx))
             "td_pm" (present_at bbs "td_pm_interaction" idx))
          "ct_pm" (present_at bbs "ct_pm_interaction" idx)).
Proof.
  intros Hlen. unfold interactions_body, mbind, result_bind, bind.
  destruct (getitem_present bbs "td_ct_interaction" idx) as (b1 & -> & ->).
  { apply (Hlen "td_ct"). unfold interaction_classes. set_solver. }
  destruct (getitem_present bbs "td_pm_interaction" idx) as (b2 & -> & ->).
  { apply (Hlen "td_pm"). unfold interaction_classes. set_solver. }
  destruct (getitem_present bbs "ct_pm_interaction" idx) as (b3 & -> & ->).
  { apply (Hlen "ct_pm"). unfold interaction_classes. set_solver. }
  by rewrite !bool_if_id.
Qed.

Lemma interactions_loop (bbs : gmap string (list BBox)) (xs : list nat)
    (acc : gmap string (list bool)) :
  (∀ idx, idx ∈ xs → ∀ key cls, (key, cls) ∈ interaction_classes →
     (idx < length (dd_get bbs cls))%nat) →
  ∃ tbl,
    for_each (interactions_body bbs) xs acc = Ok tbl ∧
    ∀ key cls, (key, cls) ∈ interaction_classes →
      dd_get tbl key = dd_get acc key ++ (present_at bbs cls <$> xs).
Proof.
  revert acc. induction xs as [|x xs IH]; intros acc Hlen; cbn [for_each].
  - exists acc. split; [done|]. intros key cls _. by rewrite app_nil_r.
  - rewrite interactions_body_ok by (apply Hlen; left).
    unfold mbind, result_bind, bind.
    edestruct IH as (tbl & -> & Htbl).
    { intros idx Hidx. apply Hlen. by right. }
    exists tbl. split; [done|]. intros key cls Hkc. rewrite (Htbl key cls Hkc).
    rewrite fmap_cons. unfold interaction_classes in Hkc.
    rewrite !elem_of_cons, elem_of_nil in Hkc.
    destruct Hkc as [[= -> ->]|[[= -> ->]|[[= -> ->]|[]]]];
      dd_simpl; by rewrite <- app_assoc.
Qed.

Lemma dd_get_reconfidence (f : float -> float) (bbs : gmap string (list BBox))
    (cls : string) :
  dd_get (reconfidence f bbs) cls = with_conf f <$> dd_get bbs cls.
Proof.
  unfold dd_get, reconfidence. rewrite lookup_fmap. by destruct (bbs !! cls).
Qed.

Lemma getitem_reconfidence (f : float -> float) (l : list BBox) (idx : nat) :
  getitem (with_conf f <$> l) idx
  = match getitem l idx with
    | Ok b => Ok (with_conf f b)
    | Raise e => Raise e
    end.
Proof. unfold getitem. rewrite list_lookup_fmap. by destruct (l !! idx). Qed.

Lemma is_present_with_conf (f : float -> float) (b : BBox) :
  is_present (with_conf f b) = is_present b.
Proof. by destruct b. Qed.

Lemma interactions_body_reconfidence (f : float -> float)
    (bbs : gmap string (list BBox)) (acc : gmap string (list bool)) (idx : nat) :
  interactions_body (reconfidence f bbs) acc idx = interactions_body bbs acc idx.
Proof.
  unfold interactions_body, mbind, result_bind, bind.
  rewrite !dd_get_reconfidence, !getitem_reconfidence.
  destruct (getitem (dd_get bbs "td_ct_interaction") idx); [|done].
  destruct (getitem (dd_get bbs "td_pm_interaction") idx); [|done].
  destruct (getitem (dd_get bbs "ct_pm_interaction") idx); [|done].
  by rewrite !is_present_with_conf.
Qed.

End InteractionsProperties.


(** ** Episodes *)

Section EpisodeProperties.

Lemma runs_from_nil_iff (l : list bool) (cur : nat) :
  runs_from cur l = [] ↔ cur = 0%nat ∧ Forall (fun b => b = false) l.
Proof.
  revert cur. induction l as [|[] l IH]; intros cur; simpl.
  - destruct cur; split; try done. by intros [? _].
  - rewrite IH. split; [intros [? _]; lia|].
    intros [_ H]. by apply Forall_cons in H as [? _].
  - destruct cur.
    + rewrite IH. split; intros [? H]; (split; [done|]).
      * by constructor.
      * by apply Forall_cons in H as [_ ?].
    + split; [done|]. by intros [? _].
Qed.

(** A series has no episode exactly when it is all [false] (or empty). *)
Lemma true_runs_nil_iff (l : list bool) :
  true_runs l = [] ↔ Forall (fun b => b = false) l.
Proof. unfold true_runs. rewrite runs_from_nil_iff. split; [by intros [_ ?]|done]. Qed.

Lemma runs_from_repeat_true (n cur : nat) (l : list bool) :
  runs_from cur (repeat true n ++ l) = runs_from (cur + n) l.
Proof.
  revert cur. induction n as [|n IH]; intros cur; simpl.
  - by rewrite Nat.add_0_r.
  - rewrite IH. f_equal. lia.
Qed.

(** The equations that determine [true_runs]. *)
Lemma true_runs_false (l : list bool) : true_runs (false :: l) = true_runs l.
Proof. reflexivity. Qed.

Lemma true_runs_last_run (n : nat) : true_runs (repeat true (S n)) = [S n].
Proof.
  unfold true_runs. rewrite <- (app_nil_r (repeat true (S n))).
  by rewrite runs_from_repeat_true.
Qed.

Lemma true_runs_run (n : nat) (l : list bool) :
  true_runs (repeat true (S n) ++ false :: l) = S n :: true_runs l.
Proof. unfold true_runs. by rewrite runs_from_repeat_true. Qed.

End EpisodeProperties.

(** ** The claims *)

Ltac by_compute :=
  match goal with
  | |- ?P => apply (@bool_decide_unpack P _); vm_compute; exact I
  end.

(** C1: for a series with at least one maximal run of [true],
    [interactions_statistics] sets [min_time] to the length of a shortest
    run times the frame duration and [max_time] to the length of a longest
    run times the frame duration. *)
Theorem C1_min_max_episode_time (self : VideoParser)
    (interactions : list (string * list bool)) (key : string) (series : list bool) :
  valid_fps (fps self) → valid_mapping interactions →
  (key, series) ∈ interactions → true_runs series ≠ [] →
  ∃ statistics record shortest longest,
    interactions_statistics self interactions = Ok statistics ∧
    statistics !! key = Some record ∧
    is_shortest shortest (true_runs series) ∧
    is_longest longest (true_runs series) ∧
    min_time record
      = VFloat (int_mul_float (Z.of_nat shortest) (frame_duration (fps self))) ∧
    max_time record
      = VFloat (int_mul_float (Z.of_nat longest) (frame_duration (fps self))).
Proof.
  intros Hfps Hmap Hin Hruns.
  destruct (interactions_statistics_entry self interactions key series)
    as (statistics & Hrun & Hentry); [done..|].
  unfold run_metrics in Hentry.
  destruct (true_runs series) as [|n ns] eqn:E; [done|].
  eexists statistics, _, (fold_left Nat.min ns n), (fold_left Nat.max ns n).
  split; [done|]. split; [exact Hentry|].
  split; [apply fold_min_shortest|]. split; [apply fold_max_longest|]. done.
Qed.

Lemma C1_witness :
  ∃ statistics record shortest longest,
    interactions_statistics (sample_parser 2) [("td_ct", sample_series)] = Ok statistics ∧
    statistics !! "td_ct" = Some record ∧
    is_shortest shortest (true_runs sample_series) ∧
    is_longest longest (true_runs sample_series) ∧
    min_time record = VFloat (int_mul_float (Z.of_nat shortest) (frame_duration 2)) ∧
    max_time record = VFloat (int_mul_float (Z.of_nat longest) (frame_duration 2)).
Proof.
  apply (C1_min_max_episode_time (sample_parser 2) [("td_ct", sample_series)]
           "td_ct" sample_series).
  - reflexivity.
  - split; by_compute.
  - by_compute.
  - vm_compute. discriminate.
Defined.

(** C2: on [T,T,F,T,F,F,T,T,T] with a frame duration of 0.5 s the metrics
    are 3 episodes, 3.0 s in total, 0.5 s at least, 1.5 s at most and
    1.0 s on average; a parser at 2 frames per second stores them under
    each pair-key. *)
Theorem C2_run_segmentation_example :
  let record := mk_stats (VInt 3) (VFloat 3) (VFloat 0.5) (VFloat 1.5) (VFloat 1) in
  frame_duration 2 = 0.5%float ∧
  true_runs sample_series = [2; 1; 3]%nat ∧
  metrics 0.5 sample_series = Ok record ∧
  ∃ statistics,
    interactions_statistics (sample_parser 2)
      [("td_ct", sample_series); ("td_pm", sample_series); ("ct_pm", sample_series)]
    = Ok statistics ∧
    statistics !! "td_ct" = Some record ∧
    statistics !! "td_pm" = Some record ∧
    statistics !! "ct_pm" = Some record.
Proof.
  cbv zeta. split; [reflexivity|]. split; [reflexivity|].
  split; [vm_compute; reflexivity|].
  eexists. split; [vm_compute; reflexivity|].
  repeat split; vm_compute; reflexivity.
Qed.

(** C3: for a series without any run of [true] (all [false], or empty)
    [interactions_statistics] stores [None] in all five fields, and [None]
    is neither the integer nor the float zero. *)
Theorem C3_no_episode_sentinel (self : VideoParser)
    (interactions : list (string * list bool)) (key : string) (series : list bool) :
  valid_fps (fps self) → valid_mapping interactions →
  (key, series) ∈ interactions → true_runs series = [] →
  ∃ statistics record,
    interactions_statistics self interactions = Ok statistics ∧
    statistics !! key = Some record ∧
    n_interactions record = VNone ∧ total_time record = VNone ∧
    min_time record = VNone ∧ max_time record = VNone ∧ mean_time record = VNone ∧
    VNone ≠ VInt 0 ∧ VNone ≠ VFloat PrimFloat.zero.
Proof.
  intros Hfps Hmap Hin Hruns.
  destruct (interactions_statistics_entry self interactions key series)
    as (statistics & Hrun & Hentry); [done..|].
  unfold run_metrics in Hentry. rewrite Hruns in Hentry.
  exists statistics, none_stats. repeat split; done.
Qed.

Lemma C3_witness :
  ∃ statistics record,
    interactions_statistics (sample_parser 30)
      [("td_ct", sample_series); ("ct_pm", [false; false; false])] = Ok statistics ∧
    statistics !! "ct_pm" = Some record ∧
    n_interactions record = VNone ∧ total_time record = VNone ∧
    min_time record = VNone ∧ max_time record = VNone ∧ mean_time record = VNone ∧
    VNone ≠ VInt 0 ∧ VNone ≠ VFloat PrimFloat.zero.
Proof.
  apply (C3_no_episode_sentinel (sample_parser 30)
           [("td_ct", sample_series); ("ct_pm", [false; false; false])]
           "ct_pm" [false; false; false]).
  - reflexivity.
  - split; by_compute.
  - by_compute.
  - reflexivity.
Defined.

(** C4: [mean_time] is [total_time] divided by the episode count whenever
    there is an episode; without one no division takes place: the call
    returns, [mean_time] is [None], and computing the metrics never raises
    [ZeroDivisionError]. *)
Theorem C4_mean_episode_time (self : VideoParser)
    (interactions : list (string * list bool)) (key : string) (series : list bool) :
  valid_fps (fps self) → valid_mapping interactions → (key, series) ∈ interactions →
  ∃ statistics record,
    interactions_statistics self interactions = Ok statistics ∧
    statistics !! key = Some record ∧
    (true_runs series ≠ [] →
       ∃ total episodes,
         total_time record = VFloat total ∧
         n_interactions record = VInt episodes ∧
         episodes = len (true_runs series) ∧ episodes ≠ 0 ∧
         float_truediv_int total episodes = Ok (PrimFloat.div total (float_of_int episodes)) ∧
         mean_time record = VFloat (PrimFloat.div total (float_of_int episodes))) ∧
    (true_runs series = [] → mean_time record = VNone) ∧
    (∀ frame_time msg, metrics frame_time series ≠ Raise (ZeroDivisionError msg)).
Proof.
  intros Hfps Hmap Hin.
  destruct (interactions_statistics_entry self interactions key series)
    as (statistics & Hrun & Hentry); [done..|].
  exists statistics, (run_metrics (frame_duration (fps self)) series).
  split; [done|]. split; [done|]. unfold run_metrics. split; [|split].
  - intros Hruns. destruct (true_runs series) as [|n ns]; [done|].
    eexists _, _. split; [reflexivity|]. split; [reflexivity|]. split; [done|].
    assert (len (n :: ns) ≠ 0) as Hne by (unfold len; simpl; lia).
    split; [done|]. split; [|done].
    unfold float_truediv_int. by destruct (Z.eqb_spec (len (n :: ns)) 0).
  - by intros ->.
  - intros frame_time msg. by rewrite metrics_closed_form.
Qed.

Lemma C4_witness :
  ∃ statistics record,
    interactions_statistics (sample_parser 2) [("td_pm", sample_series)] = Ok statistics ∧
    statistics !! "td_pm" = Some record ∧
    (true_runs sample_series ≠ [] →
       ∃ total episodes,
         total_time record = VFloat total ∧
         n_interactions record = VInt episodes ∧
         episodes = len (true_runs sample_series) ∧ episodes ≠ 0 ∧
         float_truediv_int total episodes = Ok (PrimFloat.div total (float_of_int episodes)) ∧
         mean_time record = VFloat (PrimFloat.div total (float_of_int episodes))) ∧
    (true_runs sample_series = [] → mean_time record = VNone) ∧
    (∀ frame_time msg, metrics frame_time sample_series ≠ Raise (ZeroDivisionError msg)).
Proof.
  apply (C4_mean_episode_time (sample_parser 2) [("td_pm", sample_series)]
           "td_pm" sample_series).
  - reflexivity.
  - split; by_compute.
  - by_compute.
Defined.

(** C5: when the declared frame count N is not negative, every table
    [bboxes] returns has six sequences of length exactly N; and [bboxes]
    does return one when the source delivers N frames and each inference
    yields six predictions. *)
Theorem C5_detection_table_lengths (frame raw_pred : Type)
    (predict : Z -> frame -> list raw_pred) (mk_BBox : raw_pred -> BBox)
    (video : Capture frame) (nc : Z) :
  0 <= frame_count video →
  ((Z.to_nat (frame_count video) <= length (frames video))%nat →
   Forall (fun f => (6 <= length (predict nc f))%nat) (frames video) →
   ∃ table,
     bboxes frame raw_pred predict mk_BBox (frame_count video) nc (frames video)
     = Ok table) ∧
  (∀ table,
     bboxes frame raw_pred predict mk_BBox (frame_count video) nc (frames video)
     = Ok table →
     ∀ k, k ∈ class_keys → len (dd_get table k) = frame_count video).
Proof.
  intros Hcount. unfold bboxes, mbind, result_bind, bind. split.
  - intros Hlen Hsix.
    destruct (bboxes_loop_ok frame raw_pred predict mk_BBox nc
                (range (frame_count video)) (frames video) ∅) as [st ->];
      [by rewrite length_range|done|].
    by eexists.
  - intros table Hrun k Hk.
    destruct (for_each _ _ _) as [[cap' bbs']|e] eqn:Hloop; [|done].
    injection Hrun as <-. simpl.
    pose proof (bboxes_loop_lengths _ _ _ _ _ _ _ _ _ _ Hloop k Hk) as Hlen.
    rewrite dd_get_empty, length_range in Hlen. simpl in Hlen.
    unfold len. rewrite Hlen. lia.
Qed.

Lemma C5_witness :
  (∃ table, bboxes unit BBox six_absent id 2 6 [tt; tt] = Ok table) ∧
  (∀ table, bboxes unit BBox six_absent id 2 6 [tt; tt] = Ok table →
     ∀ k, k ∈ class_keys → len (dd_get table k) = 2).
Proof.
  destruct (C5_detection_table_lengths unit BBox six_absent id
              (mk_Capture 2 30 [tt; tt]) 6) as [Hreturns Hlengths].
  - vm_compute. discriminate.
  - split; [|exact Hlengths]. apply Hreturns.
    + vm_compute. repeat constructor.
    + repeat constructor.
Defined.

(** C6: on a table whose interaction sequences are complete,
    [interactions] returns, and at every frame index the entry under a
    pair-key is [True] iff the box of the corresponding interaction class
    is not the absent value at that frame; replacing every confidence in
    the table leaves the result unchanged. *)
Theorem C6_interaction_presence (self : VideoParser) :
  interaction_sequences_complete self →
  ∃ table,
    interactions self = Ok table ∧
    (∀ key cls idx,
       (key, cls) ∈ interaction_classes → Z.of_nat idx < total_frames self →
       ∃ box entry,
         dd_get (bbs self) cls !! idx = Some box ∧
         dd_get table key !! idx = Some entry ∧
         (entry = true ↔ box ≠ Absent)) ∧
    (∀ f : float -> float,
       interactions (mk_VideoParser (total_frames self) (fps self) (n_classes self)
                       (reconfidence f (bbs self)))
       = Ok table).
Proof.
  intros Hcomplete. unfold interaction_sequences_complete in Hcomplete.
  rewrite Forall_forall in Hcomplete.
  assert (∀ idx, idx ∈ range (total_frames self) →
            ∀ key cls, (key, cls) ∈ interaction_classes →
              (idx < length (dd_get (bbs self) cls))%nat) as Hrange.
  { intros idx Hidx key cls Hkc. specialize (Hcomplete _ Hkc). simpl in Hcomplete.
    unfold range in Hidx. apply elem_of_seq in Hidx. unfold len in Hcomplete. lia. }
  destruct (interactions_loop (bbs self) (range (total_frames self)) ∅ Hrange)
    as (table & Hrun & Htable).
  exists table. split; [exact Hrun|]. split.
  - intros key cls idx Hkc Hidx.
    assert (idx < length (dd_get (bbs self) cls))%nat as Hlt.
    { specialize (Hcomplete _ Hkc). simpl in Hcomplete. unfold len in Hcomplete. lia. }
    destruct (lookup_lt_is_Some_2 _ _ Hlt) as [box Hbox].
    exists box, (is_present box). split; [done|]. split.
    + rewrite (Htable key cls Hkc), dd_get_empty. simpl.
      rewrite list_lookup_fmap. unfold range.
      rewrite lookup_seq_lt by lia. simpl.
      unfold present_at. by rewrite Hbox.
    + by destruct box.
  - intros f. unfold interactions. simpl. rewrite <- Hrun.
    apply for_each_ext. intros acc idx. apply interactions_body_reconfidence.
Qed.

Lemma C6_witness :
  ∃ table,
    interactions (mk_VideoParser 2 30 6 sample_interaction_table) = Ok table ∧
    (∀ key cls idx,
       (key, cls) ∈ interaction_classes → Z.of_nat idx < 2 →
       ∃ box entry,
         dd_get sample_interaction_table cls !! idx = Some box ∧
         dd_get table key !! idx = Some entry ∧
         (entry = true ↔ box ≠ Absent)) ∧
    (∀ f : float -> float,
       interactions (mk_VideoParser 2 30 6 (reconfidence f sample_interaction_table))
       = Ok table).
Proof.
  apply (C6_interaction_presence (mk_VideoParser 2 30 6 sample_interaction_table)).
  repeat constructor.
Defined.

(** C7, as the code has it: when the source delivers fewer frames than
    declared, [bboxes] raises, and so does the constructor, so no table,
    partial or complete, is returned; when each delivered frame yields six
    predictions the exception is the [TypeError] of subscripting the
    missing frame, the same value at every frame index. *)
Theorem C7_exhausted_source_raises (frame raw_pred : Type)
    (predict : Z -> frame -> list raw_pred) (mk_BBox : raw_pred -> BBox)
    (video : Capture frame) (nc : Z) :
  Z.of_nat (length (frames video)) < frame_count video →
  ∃ e,
    bboxes frame raw_pred predict mk_BBox (frame_count video) nc (frames video)
    = Raise e ∧
    init frame raw_pred predict mk_BBox video nc = Raise e ∧
    (Forall (fun f => (6 <= length (predict nc f))%nat) (frames video) →
     e = TypeError exhausted_message).
Proof.
  intros Hshort.
  destruct (bboxes_loop_exhausted frame raw_pred predict mk_BBox nc
              (range (frame_count video)) (frames video) ∅) as (e & Hloop & Hkind).
  { rewrite length_range. lia. }
  exists e. unfold init, bboxes, mbind, result_bind, bind. rewrite Hloop.
  split; [done|]. split; [done|]. exact Hkind.
Qed.

Lemma C7_witness :
  ∃ e,
    bboxes unit BBox six_absent id 3 6 [tt; tt] = Raise e ∧
    init unit BBox six_absent id (mk_Capture 3 30 [tt; tt]) 6 = Raise e ∧
    (Forall (fun f => (6 <= length (six_absent 6 f))%nat) [tt; tt] →
     e = TypeError exhausted_message).
Proof.
  apply (C7_exhausted_source_raises unit BBox six_absent id (mk_Capture 3 30 [tt; tt]) 6).
  vm_compute. reflexivity.
Defined.

(** C7, as stated, fails: a source exhausted at frame 0 and one exhausted
    at frame 1 raise an exception of the same type and message, so no
    frame index can be read off it. *)
Lemma C7_counterexample :
  bboxes unit BBox six_absent id 1 6 [] = Raise (TypeError exhausted_message) ∧
  bboxes unit BBox six_absent id 2 6 [tt] = Raise (TypeError exhausted_message) ∧
  ¬ exhaustion_error_identifies_frame unit BBox six_absent id.
Proof.
  split; [reflexivity|]. split; [vm_compute; reflexivity|].
  intros [frame_index_of Hident].
  destruct (Hident (mk_Capture 1 30 []) 6) as (e0 & Hrun0 & Hidx0); [simpl; lia|].
  destruct (Hident (mk_Capture 2 30 [tt]) 6) as (e1 & Hrun1 & Hidx1); [simpl; lia|].
  vm_compute in Hrun0, Hrun1. injection Hrun0 as <-. injection Hrun1 as <-.
  simpl in Hidx0, Hidx1. lia.
Qed.

(** C8: for the one-frame table td = box(0,0,10,10), ct = box(5,5,15,15),
    pm = absent, whatever the confidences and class identifiers,
    [closeness] gives 0.25 for td_ct (intersection area 25 over the
    smaller area 100) and 0.0 for td_pm and ct_pm. *)
Theorem C8_closeness_example (c1 c2 : float) (k1 k2 : Z) :
  intersection_area 0 0 10 10 5 5 15 15 = 25%float ∧
  fmin (area 0 0 10 10) (area 5 5 15 15) = 100%float ∧
  ∃ table,
    closeness (mk_VideoParser 1 30 6 (sample_table c1 c2 k1 k2)) = Ok table ∧
    dd_get table "td_ct" = [0.25%float] ∧
    dd_get table "td_pm" = [0%float] ∧
    dd_get table "ct_pm" = [0%float].
Proof.
  split; [vm_compute; reflexivity|]. split; [vm_compute; reflexivity|].
  eexists. split; [vm_compute; reflexivity|].
  repeat split; vm_compute; reflexivity.
Qed.

(** C9, as the code has it: the number of [true] entries that
    [interactions_statistics] counts is the sum of the lengths of the
    maximal runs of [true], so for a series with an episode [total_time]
    is (sum of the run lengths) times the frame duration. *)
Theorem C9_total_time_counts_run_frames (self : VideoParser)
    (interactions : list (string * list bool)) (key : string) (series : list bool) :
  valid_fps (fps self) → valid_mapping interactions → (key, series) ∈ interactions →
  ∃ statistics record,
    interactions_statistics self interactions = Ok statistics ∧
    statistics !! key = Some record ∧
    count series 1 = Z.of_nat (sum_list (true_runs series)) ∧
    (true_runs series ≠ [] →
     total_time record
     = VFloat (int_mul_float (Z.of_nat (sum_list (true_runs series)))
                             (frame_duration (fps self)))).
Proof.
  intros Hfps Hmap Hin.
  destruct (interactions_statistics_entry self interactions key series)
    as (statistics & Hrun & Hentry); [done..|].
  exists statistics, (run_metrics (frame_duration (fps self)) series).
  split; [done|]. split; [done|]. split.
  - by rewrite count_true_frames, true_frames_sum_runs.
  - intros Hruns. unfold run_metrics. rewrite <- true_frames_sum_runs.
    by destruct (true_runs series).
Qed.

Lemma C9_witness :
  ∃ statistics record,
    interactions_statistics (sample_parser 30) [("td_ct", rounding_series)]
    = Ok statistics ∧
    statistics !! "td_ct" = Some record ∧
    count rounding_series 1 = Z.of_nat (sum_list (true_runs rounding_series)) ∧
    (true_runs rounding_series ≠ [] →
     total_time record
     = VFloat (int_mul_float (Z.of_nat (sum_list (true_runs rounding_series)))
                             (frame_duration 30))).
Proof.
  apply (C9_total_time_counts_run_frames (sample_parser 30)
           [("td_ct", rounding_series)] "td_ct" rounding_series).
  - reflexivity.
  - split; by_compute.
  - by_compute.
Defined.

(** C9, as stated, fails in binary64 arithmetic: at 30 frames per second
    the series [T,T,F,T,T,T] has [total_time] 5 * (1/30), while its two
    episodes last 2 * (1/30) and 3 * (1/30), whose sum is the next float
    up. *)
Lemma C9_counterexample :
  ∃ statistics record,
    interactions_statistics (sample_parser 30) [("td_ct", rounding_series)]
    = Ok statistics ∧
    statistics !! "td_ct" = Some record ∧
    true_runs rounding_series = [2; 3]%nat ∧
    total_time record = VFloat 0x1.5555555555555p-3 ∧
    total_time_by_runs (frame_duration 30) rounding_series = 0x1.5555555555556p-3%float ∧
    total_time record ≠ VFloat (total_time_by_runs (frame_duration 30) rounding_series).
Proof.
  eexists _, _. split; [vm_compute; reflexivity|].
  split; [vm_compute; reflexivity|].
  split; [reflexivity|]. split; [vm_compute; reflexivity|].
  split; [vm_compute; reflexivity|].
  vm_compute. intros H. discriminate H.
Qed.

(** C10: when the mapping has a key other than 'td_ct', 'td_pm' and
    'ct_pm', [interactions_statistics] raises [KeyError] on such a key
    and returns no record. *)
Theorem C10_unknown_key_raises (self : VideoParser)
    (interactions : list (string * list bool)) :
  valid_fps (fps self) →
  Exists (fun k => k ∉ pair_keys) interactions.*1 →
  ∃ k,
    k ∈ interactions.*1 ∧ (k ∉ pair_keys) ∧
    interactions_statistics self interactions = Raise (KeyError k).
Proof.
  intros Hfps Hbad. apply Exists_exists in Hbad as (k & Hk & Hunknown).
  unfold interactions_statistics. rewrite int_truediv_float_ok by done.
  unfold mbind, result_bind, bind.
  destruct (statistics_loop_key_error (frame_duration (fps self)) interactions
              initial_statistics) as (k' & Hk' & Hnone & Hrun).
  { exists k. split; [done|]. apply eq_None_not_Some.
    by rewrite initial_statistics_keys. }
  exists k'. split; [done|]. split; [|done].
  rewrite <- initial_statistics_keys. by rewrite Hnone; intros [? ?].
Qed.

Lemma C10_witness :
  ∃ k,
    k ∈ [("td_ct", sample_series); ("td_ct_interaction", [true]); ("ct_pm", [])].*1 ∧
    (k ∉ pair_keys) ∧
    interactions_statistics (sample_parser 30)
      [("td_ct", sample_series); ("td_ct_interaction", [true]); ("ct_pm", [])]
    = Raise (KeyError k).
Proof.
  apply (C10_unknown_key_raises (sample_parser 30)
           [("td_ct", sample_series); ("td_ct_interaction", [true]); ("ct_pm", [])]).
  - reflexivity.
  - by_compute.
Defined.

(** ** Further properties of [bboxes] and [__init__] *)

Section CollectorContents.

Variable frame : Type.
Variable raw_pred : Type.
Variable predict : Z -> frame -> list raw_pred.
Variable mk_BBox : raw_pred -> BBox.

Local Abbreviation body := (bboxes_body frame raw_pred predict mk_BBox).
Local Abbreviation box_at := (box_of_prediction predict mk_BBox).

Lemma bboxes_body_entries (nc : Z) (cap cap' : list frame)
    (bbs bbs' : gmap string (list BBox)) (i : nat) :
  body nc (cap, bbs) i = Ok (cap', bbs') →
  ∃ f, cap = f :: cap' ∧
       ∀ key j, (key, j) ∈ class_positions →
         ∃ b, box_at nc j f b ∧ dd_get bbs' key = dd_get bbs key ++ [b].
Proof.
  unfold bboxes_body. destruct cap as [|f cap]; simpl; [done|].
  unfold getitem, mbind, result_bind, bind.
  destruct (predict nc f !! 0%nat) as [p0|] eqn:H0; [|done].
  destruct (predict nc f !! 1%nat) as [p1|] eqn:H1; [|done].
  destruct (predict nc f !! 2%nat) as [p2|] eqn:H2; [|done].
  destruct (predict nc f !! 3%nat) as [p3|] eqn:H3; [|done].
  destruct (predict nc f !! 4%nat) as [p4|] eqn:H4; [|done].
  destruct (predict nc f !! 5%nat) as [p5|] eqn:H5; [|done].
  intros [= <- <-]. exists f. split; [done|].
  intros key j Hkj. unfold class_positions in Hkj.
  rewrite !elem_of_cons, elem_of_nil in Hkj.
  destruct Hkj as [[= -> ->]|[[= -> ->]|[[= -> ->]|[[= -> ->]|[[= -> ->]|[[= -> ->]|[]]]]]]];
    eexists; (split; [eexists; split; [eassumption|reflexivity]|]); by dd_simpl.
Qed.

Lemma bboxes_loop_entries (nc : Z) (xs : list nat) (cap cap' : list frame)
    (bbs bbs' : gmap string (list BBox)) :
  for_each (body nc) xs (cap, bbs) = Ok (cap', bbs') →
  cap' = drop (length xs) cap ∧
  ∀ key j, (key, j) ∈ class_positions →
    ∃ new, dd_get bbs' key = dd_get bbs key ++ new ∧
           Forall2 (box_at nc j) (take (length xs) cap) new.
Proof.
  revert cap bbs. induction xs as [|x xs IH]; intros cap bbs; cbn [for_each length].
  - intros [= <- <-]. split; [by rewrite drop_0|].
    intros key j _. exists []. rewrite app_nil_r, take_0. by split.
  - unfold mbind, result_bind, bind.
    destruct (body nc (cap, bbs) x) as [[cap1 bbs1]|e] eqn:Hbody; [|done].
    intros Hrest. apply bboxes_body_entries in Hbody as (f & -> & Hstep).
    apply IH in Hrest as [-> Hnew]. split; [done|].
    intros key j Hkj. destruct (Hstep key j Hkj) as (b & Hb & Hone).
    destruct (Hnew key j Hkj) as (new & Hall & Hrel).
    exists (b :: new). split.
    + rewrite Hall, Hone. by rewrite <- app_assoc.
    + simpl. by constructor.
Qed.

Lemma bboxes_body_rest (nc : Z) (f : frame) (cap1 cap2 : list frame)
    (bbs : gmap string (list BBox)) (i : nat) :
  body nc (f :: cap1, bbs) i
  = match body nc (f :: cap2, bbs) i with
    | Ok st => Ok (cap1, st.2)
    | Raise e => Raise e
    end.
Proof.
  unfold bboxes_body. simpl. unfold getitem, mbind, result_bind, bind.
  destruct (predict nc f !! 0%nat); [|done].
  destruct (predict nc f !! 1%nat); [|done].
  destruct (predict nc f !! 2%nat); [|done].
  destruct (predict nc f !! 3%nat); [|done].
  destruct (predict nc f !! 4%nat); [|done].
  by destruct (predict nc f !! 5%nat).
Qed.

Lemma bboxes_loop_extra_frames (nc : Z) (xs : list nat) (cap extra : list frame)
    (bbs : gmap string (list BBox)) :
  (length xs <= length cap)%nat →
  for_each (body nc) xs (cap ++ extra, bbs)
  = match for_each (body nc) xs (cap, bbs) with
    | Ok st => Ok (st.1 ++ extra, st.2)
    | Raise e => Raise e
    end.
Proof.
  revert cap bbs. induction xs as [|x xs IH]; intros cap bbs Hlen; cbn [for_each length] in *.
  - done.
  - destruct cap as [|f cap]; simpl in Hlen; [lia|].
    rewrite <- app_comm_cons. rewrite (bboxes_body_rest nc f (cap ++ extra) cap).
    unfold mbind, result_bind, bind.
    destruct (body nc (f :: cap, bbs) x) as [[cap1 bbs1]|e] eqn:Hbody; [|done].
    pose proof Hbody as Hinv.
    apply bboxes_body_entries in Hinv as (f' & [= <- <-] & _).
    simpl. apply IH. lia.
Qed.

Lemma bboxes_body_short (nc : Z) (f : frame) (cap : list frame)
    (bbs : gmap string (list BBox)) (i : nat) :
  (length (predict nc f) < 6)%nat →
  body nc (f :: cap, bbs) i = Raise index_error.
Proof.
  intros Hlen. unfold bboxes_body. simpl.
  destruct (predict nc f) as [|p0 [|p1 [|p2 [|p3 [|p4 [|p5 ps]]]]]];
    simpl in Hlen; try lia; reflexivity.
Qed.

Lemma bboxes_loop_short (nc : Z) (xs : list nat) (pre post : list frame) (f : frame)
    (bbs : gmap string (list BBox)) :
  Forall (fun g => (6 <= length (predict nc g))%nat) pre →
  (length (predict nc f) < 6)%nat →
  (length pre < length xs)%nat →
  for_each (body nc) xs (pre ++ f :: post, bbs) = Raise index_error.
Proof.
  revert xs bbs. induction pre as [|g pre IH]; intros xs bbs Hpre Hf Hlen;
    destruct xs as [|x xs]; simpl in Hlen; try lia; cbn [for_each].
  - rewrite app_nil_l. by rewrite bboxes_body_short.
  - apply Forall_cons in Hpre as [Hg Hpre]. rewrite <- app_comm_cons.
    destruct (bboxes_body_ok frame raw_pred predict mk_BBox nc g (pre ++ f :: post) bbs x Hg)
      as [bbs1 ->].
    unfold mbind, result_bind, bind. apply IH; [done..|lia].
Qed.

End CollectorContents.

(** ** Further properties of [closeness] and [interactions] *)

Section FrameLoops.

Lemma for_each_raise {A S : Type} (body : S -> A -> result S) (bad : A -> Prop)
    (e : exn) (xs : list A) (s : S) :
  (∀ s x, (∃ s', body s x = Ok s') ∨ body s x = Raise e) →
  (∀ s x, bad x → body s x = Raise e) →
  Exists bad xs → for_each body xs s = Raise e.
Proof.
  intros Hcases Hbad Hex. revert s.
  induction Hex as [x xs Hx|x xs _ IH]; intros s; cbn [for_each];
    unfold mbind, result_bind, bind.
  - by rewrite Hbad.
  - destruct (Hcases s x) as [[s' ->]| ->]; [apply IH|done].
Qed.

Lemma range_elem (n : Z) (idx : nat) : idx ∈ range n ↔ Z.of_nat idx < n.
Proof. unfold range. rewrite elem_of_seq. lia. Qed.

Lemma range_exists_short (n : Z) (m : nat) :
  Z.of_nat m < n → Exists (fun idx => (m <= idx)%nat) (range n).
Proof. intros Hlt. apply Exists_exists. exists m. by rewrite range_elem. Qed.

Lemma len_range_fmap {A : Type} (f : nat -> A) (n : Z) :
  len (f <$> range n) = Z.max 0 n.
Proof. unfold len. rewrite length_fmap, length_range. lia. Qed.

Lemma lookup_range_fmap {A : Type} (f : nat -> A) (n : Z) (idx : nat) :
  Z.of_nat idx < n → (f <$> range n) !! idx = Some (f idx).
Proof.
  intros Hlt. rewrite list_lookup_fmap. unfold range.
  rewrite lookup_seq_lt by lia. done.
Qed.

Lemma closeness_body_ok (bbs : gmap string (list BBox))
    (acc : gmap string (list float)) (idx : nat) :
  (∀ cls, cls ∈ actor_classes → (idx < length (dd_get bbs cls))%nat) →
  closeness_body bbs acc idx
  = Ok (dd_append
          (dd_append
             (dd_append acc "td_ct" (niou_at bbs "td" "ct" idx))
             "td_pm" (niou_at bbs "td" "pm" idx))
          "ct_pm" (niou_at bbs "ct" "pm" idx)).
Proof.
  intros Hlen. unfold closeness_body, niou_at, getitem, mbind, result_bind, bind.
  destruct (lookup_lt_is_Some_2 (dd_get bbs "td") idx) as [td ->].
  { apply Hlen. unfold actor_classes. set_solver. }
  destruct (lookup_lt_is_Some_2 (dd_get bbs "ct") idx) as [ct ->].
  { apply Hlen. unfold actor_classes. set_solver. }
  destruct (lookup_lt_is_Some_2 (dd_get bbs "pm") idx) as [pm ->].
  { apply Hlen. unfold actor_classes. set_solver. }
  done.
Qed.

Lemma closeness_body_cases (bbs : gmap string (list BBox))
    (acc : gmap string (list float)) (idx : nat) :
  (∃ acc', closeness_body bbs acc idx = Ok acc') ∨
  closeness_body bbs acc idx = Raise index_error.
Proof.
  unfold closeness_body, getitem, mbind, result_bind, bind.
  destruct (dd_get bbs "td" !! idx); [|by right].
  destruct (dd_get bbs "ct" !! idx); [|by right].
  destruct (dd_get bbs "pm" !! idx); [|by right].
  left. by eexists.
Qed.

Lemma closeness_body_short (bbs : gmap string (list BBox))
    (acc : gmap string (list float)) (cls : string) (idx : nat) :
  cls ∈ actor_classes → (length (dd_get bbs cls) <= idx)%nat →
  closeness_body bbs acc idx = Raise index_error.
Proof.
  intros Hcls Hshort. apply lookup_ge_None_2 in Hshort.
  unfold actor_classes in Hcls. rewrite !elem_of_cons, elem_of_nil in Hcls.
  unfold closeness_body, getitem, mbind, result_bind, bind.
  destruct Hcls as [->|[->|[->|[]]]]; rewrite ?Hshort; try done.
  - by destruct (dd_get bbs "td" !! idx).
  - destruct (dd_get bbs "td" !! idx); [|done].
    by destruct (dd_get bbs "ct" !! idx).
Qed.

Lemma closeness_loop (bbs : gmap string (list BBox)) (xs : list nat)
    (acc : gmap string (list float)) :
  (∀ idx, idx ∈ xs → ∀ cls, cls ∈ actor_classes →
     (idx < length (dd_get bbs cls))%nat) →
  ∃ tbl,
    for_each (closeness_body bbs) xs acc = Ok tbl ∧
    ∀ key a b, (key, (a, b)) ∈ closeness_pairs →
      dd_get tbl key = dd_get acc key ++ (niou_at bbs a b <$> xs).
Proof.
  revert acc. induction xs as [|x xs IH]; intros acc Hlen; cbn [for_each].
  - exists acc. split; [done|]. intros key a b _. by rewrite app_nil_r.
  - rewrite closeness_body_ok by (apply Hlen; left).
    unfold mbind, result_bind, bind.
    edestruct IH as (tbl & -> & Htbl).
    { intros idx Hidx. apply Hlen. by right. }
    exists tbl. split; [done|]. intros key a b Hk. rewrite (Htbl key a b Hk).
    rewrite fmap_cons. unfold closeness_pairs in Hk.
    rewrite !elem_of_cons, elem_of_nil in Hk.
    destruct Hk as [[= -> -> ->]|[[= -> -> ->]|[[= -> -> ->]|[]]]];
      dd_simpl; by rewrite <- app_assoc.
Qed.

Lemma interactions_body_cases (bbs : gmap string (list BBox))
    (acc : gmap string (list bool)) (idx : nat) :
  (∃ acc', interactions_body bbs acc idx = Ok acc') ∨
  interactions_body bbs acc idx = Raise index_error.
Proof.
  unfold interactions_body, getitem, mbind, result_bind, bind.
  destruct (dd_get bbs "td_ct_interaction" !! idx); [|by right].
  destruct (dd_get bbs "td_pm_interaction" !! idx); [|by right].
  destruct (dd_get bbs "ct_pm_interaction" !! idx); [|by right].
  left. by eexists.
Qed.

Lemma interactions_body_short (bbs : gmap string (list BBox))
    (acc : gmap string (list bool)) (key cls : string) (idx : nat) :
  (key, cls) ∈ interaction_classes → (length (dd_get bbs cls) <= idx)%nat →
  interactions_body bbs acc idx = Raise index_error.
Proof.
  intros Hcls Hshort. apply lookup_ge_None_2 in Hshort.
  unfold interaction_classes in Hcls. rewrite !elem_of_cons, elem_of_nil in Hcls.
  unfold interactions_body, getitem, mbind, result_bind, bind.
  destruct Hcls as [[= -> ->]|[[= -> ->]|[[= -> ->]|[]]]]; rewrite ?Hshort; try done.
  - by destruct (dd_get bbs "td_ct_interaction" !! idx).
  - destruct (dd_get bbs "td_ct_interaction" !! idx); [|done].
    by destruct (dd_get bbs "td_pm_interaction" !! idx).
Qed.

Lemma interactions_body_reads (bbs bbs' : gmap string (list BBox))
    (acc : gmap string (list bool)) (idx : nat) :
  (∀ key cls, (key, cls) ∈ interaction_classes → dd_get bbs cls = dd_get bbs' cls) →
  interactions_body bbs acc idx = interactions_body bbs' acc idx.
Proof.
  intros Hsame. unfold interactions_body.
  rewrite (Hsame "td_ct" "td_ct_interaction"), (Hsame "td_pm" "td_pm_interaction"),
    (Hsame "ct_pm" "ct_pm_interaction"); [done|unfold interaction_classes; set_solver..].
Qed.

Lemma closeness_body_reads (bbs bbs' : gmap string (list BBox))
    (acc : gmap string (list float)) (idx : nat) :
  (∀ cls, cls ∈ actor_classes → dd_get bbs cls = dd_get bbs' cls) →
  closeness_body bbs acc idx = closeness_body bbs' acc idx.
Proof.
  intros Hsame. unfold closeness_body.
  rewrite (Hsame "td"), (Hsame "ct"), (Hsame "pm");
    [done|unfold actor_classes; set_solver..].
Qed.

End FrameLoops.

(** ** Further properties of [interactions_statistics] *)

Section ReducerLoops.

Lemma set_field_keys (statistics statistics' : gmap string stats) (key : string)
    (upd : stats -> stats) (k : string) :
  set_field statistics key upd = Ok statistics' →
  is_Some (statistics' !! k) ↔ is_Some (statistics !! k).
Proof.
  unfold set_field. destruct (statistics !! key) as [d|] eqn:Hd; [|done].
  intros [= <-]. destruct (decide (key = k)) as [<-|Hne].
  - rewrite lookup_insert_eq, Hd. split; by eexists.
  - by rewrite lookup_insert_ne.
Qed.

Lemma statistics_loop_keys (frame_time : float) (items : list (string * list bool))
    (statistics statistics' : gmap string stats) (k : string) :
  statistics_loop frame_time items statistics = Ok statistics' →
  is_Some (statistics' !! k) ↔ is_Some (statistics !! k).
Proof.
  revert statistics. induction items as [|[key l] items IH]; intros statistics; simpl.
  - by intros [= <-].
  - rewrite metrics_closed_form. unfold mbind, result_bind, bind.
    destruct (statistics !! key) as [d|] eqn:Hd.
    + rewrite (store_ok _ _ d) by done. intros Hrest. rewrite (IH _ Hrest).
      destruct (decide (key = k)) as [<-|Hne].
      * rewrite lookup_insert_eq, Hd. split; by eexists.
      * by rewrite lookup_insert_ne.
    + by rewrite store_missing.
Qed.

Lemma statistics_loop_first_missing (frame_time : float)
    (pre post : list (string * list bool)) (k : string) (l : list bool)
    (statistics : gmap string stats) :
  Forall (fun key => is_Some (statistics !! key)) pre.*1 →
  statistics !! k = None →
  statistics_loop frame_time (pre ++ (k, l) :: post) statistics = Raise (KeyError k).
Proof.
  revert statistics. induction pre as [|[key l'] pre IH]; intros statistics Hpre Hk; simpl.
  - rewrite metrics_closed_form. unfold mbind, result_bind, bind.
    by rewrite store_missing.
  - rewrite metrics_closed_form. unfold mbind, result_bind, bind.
    rewrite fmap_cons in Hpre. apply Forall_cons in Hpre as [[d Hd] Hpre]. simpl in Hd.
    rewrite (store_ok _ _ d) by done. apply IH.
    + eapply Forall_impl; [exact Hpre|]. intros key' [d' Hd']. simpl.
      destruct (decide (key = key')) as [<-|Hne].
      * rewrite lookup_insert_eq. by eexists.
      * rewrite lookup_insert_ne by done. by eexists.
    + rewrite lookup_insert_ne; [done|]. intros ->. congruence.
Qed.

Lemma statistics_loop_returns (frame_time : float) (items : list (string * list bool))
    (statistics : gmap string stats) :
  (∃ statistics', statistics_loop frame_time items statistics = Ok statistics')
  ↔ Forall (fun key => is_Some (statistics !! key)) items.*1.
Proof.
  split.
  - intros [st' Hrun]. apply Forall_forall. intros k Hk.
    destruct (statistics !! k) as [d|] eqn:Hd; [by eexists|].
    destruct (statistics_loop_key_error frame_time items statistics)
      as (k' & _ & _ & Hraise); [by exists k|]. congruence.
  - intros Hall. rewrite Forall_forall in Hall.
    destruct (statistics_loop_ok frame_time items statistics Hall) as (st' & Hrun & _).
    by exists st'.
Qed.

Lemma pair_keys_initial (keys : list string) :
  Forall (fun k => k ∈ pair_keys) keys
  ↔ Forall (fun k => is_Some (initial_statistics !! k)) keys.
Proof. apply Forall_iff. intros k. by rewrite initial_statistics_keys. Qed.

Lemma true_frames_repeat_true (n : nat) : true_frames (repeat true n) = n.
Proof.
  unfold true_frames. induction n as [|n IH]; [done|]. cbn [repeat].
  rewrite filter_cons_True by done. cbn [length]. by rewrite IH.
Qed.

Lemma length_le_sum_positive (ns : list nat) :
  Forall (fun n => (0 < n)%nat) ns → (length ns <= sum_list ns)%nat.
Proof. induction 1 as [|n ns Hn _ IH]; simpl; lia. Qed.

Lemma dd_append_keys {A : Type} (d : gmap string (list A)) (k k' : string) (x : A) :
  is_Some (dd_append d k x !! k') → k = k' ∨ is_Some (d !! k').
Proof.
  unfold dd_append. destruct (decide (k = k')) as [->|Hne]; [by left|].
  rewrite lookup_insert_ne by done. by right.
Qed.

Lemma interactions_loop_keys (bbs : gmap string (list BBox)) (xs : list nat)
    (acc tbl : gmap string (list bool)) (k : string) :
  for_each (interactions_body bbs) xs acc = Ok tbl →
  is_Some (tbl !! k) → is_Some (acc !! k) ∨ k ∈ pair_keys.
Proof.
  revert acc. induction xs as [|x xs IH]; intros acc; cbn [for_each].
  - intros [= <-]. by left.
  - unfold mbind, result_bind, bind.
    destruct (interactions_body bbs acc x) as [acc1|e] eqn:Hbody; [|done].
    intros Hrest Hk. destruct (IH _ Hrest Hk) as [Hacc1|?]; [|by right].
    unfold interactions_body, mbind, result_bind, bind in Hbody.
    destruct (getitem (dd_get bbs "td_ct_interaction") x); [|done].
    destruct (getitem (dd_get bbs "td_pm_interaction") x); [|done].
    destruct (getitem (dd_get bbs "ct_pm_interaction") x); [|done].
    injection Hbody as <-. unfold pair_keys.
    apply dd_append_keys in Hacc1 as [<-|Hacc1]; [right; set_solver|].
    apply dd_append_keys in Hacc1 as [<-|Hacc1]; [right; set_solver|].
    apply dd_append_keys in Hacc1 as [<-|Hacc1]; [right; set_solver|].
    by left.
Qed.

Lemma scan_invariant (gs : list (bool * list bool)) (pre : list bool) (s : scan) :
  count_aux s = len pre →
  let l := pre ++ concat (map snd gs) in
  let s' := fold_left scan_step gs s in
  count_aux s' = len l ∧
  ∃ new_idxs new_groups,
    idxs s' = idxs s ++ new_idxs ∧
    groups_of_interaction s' = groups_of_interaction s ++ new_groups ∧
    Forall2 (delimits l) new_idxs new_groups.
Proof.
  revert pre s. induction gs as [|[k g] gs IH]; intros pre s Hcount; simpl.
  - rewrite !app_nil_r. split; [done|]. exists [], []. rewrite !app_nil_r. by repeat split.
  - specialize (IH (pre ++ g) (scan_step s (k, g))).
    rewrite <- !app_assoc in IH. simpl in IH.
    destruct IH as (Hlen & new_idxs & new_groups & Hidxs & Hgroups & Hrel).
    { unfold scan_step. rewrite Hcount. unfold len. rewrite length_app.
      destruct (eq_int k 1); simpl; lia. }
    split; [done|]. unfold scan_step in Hidxs, Hgroups. rewrite eq_int_1 in Hidxs, Hgroups.
    destruct k; simpl in Hidxs, Hgroups.
    + eexists (_ :: new_idxs), (g :: new_groups).
      rewrite <- !app_assoc in Hidxs, Hgroups. simpl in Hidxs, Hgroups.
      split; [exact Hidxs|]. split; [exact Hgroups|].
      constructor; [|done]. unfold delimits, slice, len in *. simpl.
      rewrite Hcount. rewrite !length_app. repeat split; try lia.
      replace (Z.to_nat (Z.of_nat (length pre) + Z.of_nat (length g) - Z.of_nat (length g)))
        with (length pre) by lia.
      replace (Z.to_nat (Z.of_nat (length pre) + Z.of_nat (length g)
                         - (Z.of_nat (length pre) + Z.of_nat (length g) - Z.of_nat (length g))))
        with (length g) by lia.
      rewrite drop_app_length. by rewrite take_app_length.
    + by exists new_idxs, new_groups.
Qed.

End ReducerLoops.

(** ** Further results *)

Section CollectorResults.

Variable frame : Type.
Variable raw_pred : Type.
Variable predict : Z -> frame -> list raw_pred.
Variable mk_BBox : raw_pred -> BBox.

Lemma class_positions_keys (key : string) (j : nat) :
  (key, j) ∈ class_positions → key ∈ class_keys.
Proof.
  unfold class_positions, class_keys. rewrite !elem_of_cons, !elem_of_nil.
  intros [[= -> _]|[[= -> _]|[[= -> _]|[[= -> _]|[[= -> _]|[[= -> _]|[]]]]]]]; auto 10.
Qed.

Lemma bboxes_lengths (n nc : Z) (cap : list frame) (table : gmap string (list BBox)) :
  bboxes frame raw_pred predict mk_BBox n nc cap = Ok table →
  ∀ k, k ∈ class_keys → length (dd_get table k) = Z.to_nat n.
Proof.
  unfold bboxes, mbind, result_bind, bind.
  destruct (for_each _ _ _) as [[cap' bbs']|e] eqn:Hloop; [|done].
  intros [= <-] k Hk. simpl.
  rewrite (bboxes_loop_lengths _ _ _ _ _ _ _ _ _ _ Hloop k Hk).
  by rewrite dd_get_empty, length_range.
Qed.

Lemma bboxes_nonpositive (n nc : Z) (cap : list frame) :
  n <= 0 → bboxes frame raw_pred predict mk_BBox n nc cap = Ok ∅.
Proof.
  intros Hn. unfold bboxes, range. by replace (Z.to_nat n) with 0%nat by lia.
Qed.

End CollectorResults.

Section ClassKeys.

Lemma actor_classes_keys (cls : string) : cls ∈ actor_classes → cls ∈ class_keys.
Proof.
  unfold actor_classes, class_keys. rewrite !elem_of_cons, !elem_of_nil.
  intros [->|[->|[->|[]]]]; auto 10.
Qed.

Lemma interaction_classes_keys (key cls : string) :
  (key, cls) ∈ interaction_classes → cls ∈ class_keys.
Proof.
  unfold interaction_classes, class_keys. rewrite !elem_of_cons, !elem_of_nil.
  intros [[= _ ->]|[[= _ ->]|[[= _ ->]|[]]]]; auto 10.
Qed.

Lemma closeness_pairs_actors (key a b : string) :
  (key, (a, b)) ∈ closeness_pairs → a ∈ actor_classes ∧ b ∈ actor_classes.
Proof.
  unfold closeness_pairs, actor_classes. rewrite !elem_of_cons, !elem_of_nil.
  intros [[= _ -> ->]|[[= _ -> ->]|[[= _ -> ->]|[]]]]; auto 10.
Qed.

End ClassKeys.

(** X1: in a table returned by [bboxes], the entry of a class key at
    frame index i is the box built from the prediction, at that class's
    position, of the detector on the i-th frame delivered. *)
Theorem X1_bboxes_entry_by_frame_and_class (frame raw_pred : Type)
    (predict : Z -> frame -> list raw_pred) (mk_BBox : raw_pred -> BBox)
    (n nc : Z) (cap : list frame) (table : gmap string (list BBox)) :
  bboxes frame raw_pred predict mk_BBox n nc cap = Ok table →
  ∀ key j i, (key, j) ∈ class_positions → Z.of_nat i < n →
    ∃ f p, cap !! i = Some f ∧ predict nc f !! j = Some p ∧
           dd_get table key !! i = Some (mk_BBox p).
Proof.
  intros Hrun key j i Hkj Hi.
  pose proof (bboxes_lengths _ _ _ _ _ _ _ _ Hrun key (class_positions_keys key j Hkj))
    as Hlen.
  unfold bboxes, mbind, result_bind, bind in Hrun.
  destruct (for_each _ _ _) as [[cap' bbs']|e] eqn:Hloop; [|done].
  injection Hrun as <-. simpl in *.
  apply bboxes_loop_entries in Hloop as [_ Hnew].
  destruct (Hnew key j Hkj) as (new & Hall & Hrel).
  rewrite dd_get_empty in Hall. simpl in Hall. rewrite Hall in Hlen |- *.
  destruct (lookup_lt_is_Some_2 new i) as [b Hb]; [lia|].
  destruct (Forall2_lookup_r _ _ _ _ _ Hrel Hb) as (f & Hf & p & Hp & ->).
  apply lookup_take_Some in Hf as [Hf _]. by exists f, p.
Qed.

Lemma X1_witness :
  ∃ f p, [7%nat; 8%nat] !! 1%nat = Some f ∧ two_boxes 6 f !! 5%nat = Some p ∧
         dd_get (match bboxes nat BBox two_boxes id 2 6 [7%nat; 8%nat] with
                 | Ok t => t
                 | Raise _ => ∅
                 end) "ct_pm_interaction" !! 1%nat = Some (id p).
Proof.
  apply (X1_bboxes_entry_by_frame_and_class nat BBox two_boxes id 2 6 [7%nat; 8%nat]
           _ (eq_refl : bboxes nat BBox two_boxes id 2 6 [7%nat; 8%nat] = Ok _)
           "ct_pm_interaction" 5%nat 1%nat).
  - by_compute.
  - reflexivity.
Defined.

(** X2: [bboxes] reads the first N frames only: frames the source holds
    beyond the declared count change nothing. *)
Theorem X2_bboxes_ignores_later_frames (frame raw_pred : Type)
    (predict : Z -> frame -> list raw_pred) (mk_BBox : raw_pred -> BBox)
    (n nc : Z) (cap extra : list frame) :
  n <= len cap →
  bboxes frame raw_pred predict mk_BBox n nc (cap ++ extra)
  = bboxes frame raw_pred predict mk_BBox n nc cap.
Proof.
  intros Hn. unfold bboxes. rewrite bboxes_loop_extra_frames.
  - unfold mbind, result_bind, bind. by destruct (for_each _ _ _) as [[cap' bbs']|e].
  - rewrite length_range. unfold len in Hn. lia.
Qed.

Lemma X2_witness :
  bboxes nat BBox two_boxes id 2 6 ([7%nat; 8%nat] ++ [9%nat; 10%nat])
  = bboxes nat BBox two_boxes id 2 6 [7%nat; 8%nat].
Proof.
  apply (X2_bboxes_ignores_later_frames nat BBox two_boxes id 2 6 [7%nat; 8%nat]).
  vm_compute. discriminate.
Defined.

(** X3: when the detector yields fewer than six predictions for a frame
    within the declared count, after frames that each yielded six,
    [bboxes] raises [IndexError], and so does the constructor. *)
Theorem X3_short_prediction_raises (frame raw_pred : Type)
    (predict : Z -> frame -> list raw_pred) (mk_BBox : raw_pred -> BBox)
    (n nc : Z) (rate : float) (pre post : list frame) (f : frame) :
  Forall (fun g => (6 <= length (predict nc g))%nat) pre →
  (length (predict nc f) < 6)%nat →
  len pre < n →
  bboxes frame raw_pred predict mk_BBox n nc (pre ++ f :: post) = Raise index_error ∧
  init frame raw_pred predict mk_BBox (mk_Capture n rate (pre ++ f :: post)) nc
  = Raise index_error.
Proof.
  intros Hpre Hf Hn.
  assert (bboxes frame raw_pred predict mk_BBox n nc (pre ++ f :: post)
          = Raise index_error) as Hrun.
  { unfold bboxes. rewrite bboxes_loop_short; [done..|].
    rewrite length_range. unfold len in Hn. lia. }
  split; [done|]. unfold init. simpl. by rewrite Hrun.
Qed.

Lemma X3_witness :
  bboxes nat BBox short_on_odd id 4 6 ([0%nat; 2%nat] ++ 3%nat :: [4%nat])
  = Raise index_error ∧
  init nat BBox short_on_odd id (mk_Capture 4 30 ([0%nat; 2%nat] ++ 3%nat :: [4%nat])) 6
  = Raise index_error.
Proof.
  apply (X3_short_prediction_raises nat BBox short_on_odd id 4 6 30
           [0%nat; 2%nat] [4%nat] 3%nat).
  - repeat constructor.
  - vm_compute. repeat constructor.
  - vm_compute. reflexivity.
Defined.

(** X4: with a declared frame count of zero or less the constructor reads
    no frame and returns a parser with an empty table, on which
    [closeness] and [interactions] return empty mappings. *)
Theorem X4_no_frames_declared (frame raw_pred : Type)
    (predict : Z -> frame -> list raw_pred) (mk_BBox : raw_pred -> BBox)
    (video : Capture frame) (nc : Z) :
  frame_count video <= 0 →
  let self := mk_VideoParser (frame_count video) (frame_rate video) nc ∅ in
  init frame raw_pred predict mk_BBox video nc = Ok self ∧
  closeness self = Ok ∅ ∧
  interactions self = Ok ∅.
Proof.
  intros Hn self. unfold init. rewrite bboxes_nonpositive by done.
  split; [done|]. unfold closeness, interactions, range. simpl.
  by replace (Z.to_nat (frame_count video)) with 0%nat by lia.
Qed.

Lemma X4_witness :
  let self := mk_VideoParser 0 0 6 ∅ in
  init nat BBox short_on_odd id (mk_Capture 0 0 [1%nat; 2%nat]) 6 = Ok self ∧
  closeness self = Ok ∅ ∧
  interactions self = Ok ∅.
Proof.
  apply (X4_no_frames_declared nat BBox short_on_odd id (mk_Capture 0 0 [1%nat; 2%nat]) 6).
  vm_compute. discriminate.
Defined.

(** X5: on a parser the constructor returned, [closeness] and
    [interactions] both return, and each of their three sequences has as
    many entries as frames were declared (none for a negative count). *)
Theorem X5_parser_tables_complete (frame raw_pred : Type)
    (predict : Z -> frame -> list raw_pred) (mk_BBox : raw_pred -> BBox)
    (video : Capture frame) (nc : Z) (self : VideoParser) :
  init frame raw_pred predict mk_BBox video nc = Ok self →
  ∃ scores flags,
    closeness self = Ok scores ∧
    interactions self = Ok flags ∧
    ∀ key, key ∈ pair_keys →
      len (dd_get scores key) = Z.max 0 (frame_count video) ∧
      len (dd_get flags key) = Z.max 0 (frame_count video).
Proof.
  unfold init, mbind, result_bind, bind.
  destruct (bboxes _ _ _ _ _ _ _) as [table|e] eqn:Hrun; [|done].
  intros [= <-]. pose proof (bboxes_lengths _ _ _ _ _ _ _ _ Hrun) as Hlen.
  unfold closeness, interactions. simpl.
  destruct (closeness_loop table (range (frame_count video)) ∅) as (scores & -> & Hscores).
  { intros idx Hidx cls Hcls. apply range_elem in Hidx. rewrite Hlen; [lia|].
    by apply actor_classes_keys. }
  destruct (interactions_loop table (range (frame_count video)) ∅) as (flags & -> & Hflags).
  { intros idx Hidx key cls Hcls. apply range_elem in Hidx. rewrite Hlen; [lia|].
    by apply (interaction_classes_keys key). }
  exists scores, flags. split; [done|]. split; [done|].
  intros key Hkey. unfold pair_keys in Hkey.
  rewrite !elem_of_cons, elem_of_nil in Hkey.
  destruct Hkey as [->|[->|[->|[]]]].
  - rewrite (Hscores "td_ct" "td" "ct"), (Hflags "td_ct" "td_ct_interaction");
      [|unfold interaction_classes; set_solver|unfold closeness_pairs; set_solver].
    by rewrite !dd_get_empty, !app_nil_l, !len_range_fmap.
  - rewrite (Hscores "td_pm" "td" "pm"), (Hflags "td_pm" "td_pm_interaction");
      [|unfold interaction_classes; set_solver|unfold closeness_pairs; set_solver].
    by rewrite !dd_get_empty, !app_nil_l, !len_range_fmap.
  - rewrite (Hscores "ct_pm" "ct" "pm"), (Hflags "ct_pm" "ct_pm_interaction");
      [|unfold interaction_classes; set_solver|unfold closeness_pairs; set_solver].
    by rewrite !dd_get_empty, !app_nil_l, !len_range_fmap.
Qed.

Lemma X5_witness :
  ∃ scores flags,
    closeness (match init nat BBox two_boxes id (mk_Capture 2 30 [7%nat; 8%nat]) 6 with
               | Ok self => self
               | Raise _ => sample_parser 30
               end) = Ok scores ∧
    interactions (match init nat BBox two_boxes id (mk_Capture 2 30 [7%nat; 8%nat]) 6 with
                  | Ok self => self
                  | Raise _ => sample_parser 30
                  end) = Ok flags ∧
    ∀ key, key ∈ pair_keys →
      len (dd_get scores key) = Z.max 0 2 ∧ len (dd_get flags key) = Z.max 0 2.
Proof.
  apply (X5_parser_tables_complete nat BBox two_boxes id (mk_Capture 2 30 [7%nat; 8%nat]) 6).
  vm_compute. reflexivity.
Defined.

(** X6: on a table whose three actor sequences are complete, [closeness]
    returns three sequences of the declared length, and the score of a
    pair at a frame index is [niou] of the two actors' boxes at that
    index. *)
Theorem X6_closeness_entries (self : VideoParser) :
  actor_sequences_complete self →
  ∃ scores,
    closeness self = Ok scores ∧
    ∀ key a b, (key, (a, b)) ∈ closeness_pairs →
      len (dd_get scores key) = total_frames self ∧
      ∀ idx, Z.of_nat idx < total_frames self →
        ∃ x y, dd_get (bbs self) a !! idx = Some x ∧
               dd_get (bbs self) b !! idx = Some y ∧
               dd_get scores key !! idx = Some (niou x y).
Proof.
  intros Hcomplete. unfold actor_sequences_complete in Hcomplete.
  rewrite Forall_forall in Hcomplete.
  assert (0 <= total_frames self) as Hpos.
  { rewrite <- (Hcomplete "td"); [unfold len; lia|]. unfold actor_classes. set_solver. }
  unfold closeness.
  destruct (closeness_loop (bbs self) (range (total_frames self)) ∅) as (scores & -> & Hscores).
  { intros idx Hidx cls Hcls. apply range_elem in Hidx.
    specialize (Hcomplete cls Hcls). unfold len in Hcomplete. lia. }
  exists scores. split; [done|]. intros key a b Hk.
  rewrite (Hscores key a b Hk), dd_get_empty, app_nil_l. split.
  - rewrite len_range_fmap. lia.
  - intros idx Hidx. rewrite lookup_range_fmap by done.
    destruct (closeness_pairs_actors key a b Hk) as [Ha Hb].
    destruct (lookup_lt_is_Some_2 (dd_get (bbs self) a) idx) as [x Hx].
    { specialize (Hcomplete a Ha). unfold len in Hcomplete. lia. }
    destruct (lookup_lt_is_Some_2 (dd_get (bbs self) b) idx) as [y Hy].
    { specialize (Hcomplete b Hb). unfold len in Hcomplete. lia. }
    exists x, y. unfold niou_at. by rewrite Hx, Hy.
Qed.

Lemma X6_witness :
  ∃ scores,
    closeness (mk_VideoParser 2 30 6 sample_actor_table) = Ok scores ∧
    ∀ key a b, (key, (a, b)) ∈ closeness_pairs →
      len (dd_get scores key) = 2 ∧
      ∀ idx, Z.of_nat idx < 2 →
        ∃ x y, dd_get sample_actor_table a !! idx = Some x ∧
               dd_get sample_actor_table b !! idx = Some y ∧
               dd_get scores key !! idx = Some (niou x y).
Proof.
  apply (X6_closeness_entries (mk_VideoParser 2 30 6 sample_actor_table)).
  repeat constructor.
Defined.

(** X7: when one of the actor sequences td, ct, pm is shorter than the
    declared frame count, [closeness] raises [IndexError]. *)
Theorem X7_closeness_short_sequence (self : VideoParser) (cls : string) :
  cls ∈ actor_classes →
  len (dd_get (bbs self) cls) < total_frames self →
  closeness self = Raise index_error.
Proof.
  intros Hcls Hshort. unfold closeness.
  apply (for_each_raise _ (fun idx => (length (dd_get (bbs self) cls) <= idx)%nat)).
  - intros acc idx. apply closeness_body_cases.
  - intros acc idx Hidx. by apply (closeness_body_short _ _ cls).
  - by apply range_exists_short.
Qed.

Lemma X7_witness :
  closeness (mk_VideoParser 3 30 6 sample_actor_table) = Raise index_error.
Proof.
  apply (X7_closeness_short_sequence (mk_VideoParser 3 30 6 sample_actor_table) "ct").
  - by_compute.
  - vm_compute. reflexivity.
Defined.

(** X8: when one of the three interaction sequences is shorter than the
    declared frame count, [interactions] raises [IndexError]. *)
Theorem X8_interactions_short_sequence (self : VideoParser) (key cls : string) :
  (key, cls) ∈ interaction_classes →
  len (dd_get (bbs self) cls) < total_frames self →
  interactions self = Raise index_error.
Proof.
  intros Hcls Hshort. unfold interactions.
  apply (for_each_raise _ (fun idx => (length (dd_get (bbs self) cls) <= idx)%nat)).
  - intros acc idx. apply interactions_body_cases.
  - intros acc idx Hidx. by apply (interactions_body_short _ _ key cls).
  - by apply range_exists_short.
Qed.

Lemma X8_witness :
  interactions (mk_VideoParser 2 30 6 sample_actor_table) = Raise index_error.
Proof.
  apply (X8_interactions_short_sequence (mk_VideoParser 2 30 6 sample_actor_table)
           "td_pm" "td_pm_interaction").
  - by_compute.
  - vm_compute. reflexivity.
Defined.

(** X9: [interactions] reads the three interaction sequences only: two
    tables that agree on them give the same result, whatever their actor
    sequences. *)
Theorem X9_interactions_reads_interaction_classes (self : VideoParser)
    (bbs' : gmap string (list BBox)) :
  Forall (fun kc : string * string => dd_get (bbs self) kc.2 = dd_get bbs' kc.2)
         interaction_classes →
  interactions (mk_VideoParser (total_frames self) (fps self) (n_classes self) bbs')
  = interactions self.
Proof.
  intros Hsame. rewrite Forall_forall in Hsame. unfold interactions. simpl.
  apply for_each_ext. intros acc idx. symmetry. apply interactions_body_reads.
  intros key cls Hkc. apply (Hsame (key, cls) Hkc).
Qed.

Lemma X9_witness :
  interactions (mk_VideoParser 2 30 6 (<["td" := [Absent]]> sample_interaction_table))
  = interactions (mk_VideoParser 2 30 6 sample_interaction_table).
Proof.
  apply (X9_interactions_reads_interaction_classes
           (mk_VideoParser 2 30 6 sample_interaction_table)
           (<["td" := [Absent]]> sample_interaction_table)).
  repeat constructor.
Defined.

(** X10: [closeness] reads the three actor sequences only: two tables
    that agree on td, ct and pm give the same result, whatever their
    interaction sequences. *)
Theorem X10_closeness_reads_actor_classes (self : VideoParser)
    (bbs' : gmap string (list BBox)) :
  Forall (fun cls => dd_get (bbs self) cls = dd_get bbs' cls) actor_classes →
  closeness (mk_VideoParser (total_frames self) (fps self) (n_classes self) bbs')
  = closeness self.
Proof.
  intros Hsame. rewrite Forall_forall in Hsame. unfold closeness. simpl.
  apply for_each_ext. intros acc idx. symmetry. by apply closeness_body_reads.
Qed.

Lemma X10_witness :
  closeness (mk_VideoParser 2 30 6
               (<["td_ct_interaction" := [Absent]]> sample_actor_table))
  = closeness (mk_VideoParser 2 30 6 sample_actor_table).
Proof.
  apply (X10_closeness_reads_actor_classes
           (mk_VideoParser 2 30 6 sample_actor_table)
           (<["td_ct_interaction" := [Absent]]> sample_actor_table)).
  repeat constructor.
Defined.

(** X11: for a series with an episode, [n_interactions] is the number of
    maximal runs of [True], which is at least one and at most the number
    of [True] frames. *)
Theorem X11_episode_count (self : VideoParser)
    (interactions : list (string * list bool)) (key : string) (series : list bool) :
  valid_fps (fps self) → valid_mapping interactions →
  (key, series) ∈ interactions → true_runs series ≠ [] →
  ∃ statistics record,
    interactions_statistics self interactions = Ok statistics ∧
    statistics !! key = Some record ∧
    n_interactions record = VInt (len (true_runs series)) ∧
    1 <= len (true_runs series) <= count series 1.
Proof.
  intros Hfps Hmap Hin Hruns.
  destruct (interactions_statistics_entry self interactions key series)
    as (statistics & Hrun & Hentry); [done..|].
  exists statistics, (run_metrics (frame_duration (fps self)) series).
  split; [done|]. split; [done|]. split.
  - unfold run_metrics. by destruct (true_runs series).
  - rewrite count_true_frames, true_frames_sum_runs.
    pose proof (length_le_sum_positive _ (runs_from_positive series 0)) as Hle.
    fold (true_runs series) in Hle. unfold len.
    destruct (true_runs series); [done|]. simpl in *. lia.
Qed.

Lemma X11_witness :
  ∃ statistics record,
    interactions_statistics (sample_parser 30) [("ct_pm", rounding_series)] = Ok statistics ∧
    statistics !! "ct_pm" = Some record ∧
    n_interactions record = VInt (len (true_runs rounding_series)) ∧
    1 <= len (true_runs rounding_series) <= count rounding_series 1.
Proof.
  apply (X11_episode_count (sample_parser 30) [("ct_pm", rounding_series)]
           "ct_pm" rounding_series).
  - reflexivity.
  - split; by_compute.
  - by_compute.
  - vm_compute. discriminate.
Defined.

(** X12: for a series of n+1 [True] frames and nothing else there is one
    episode, and the total, the minimum and the maximum time are all
    (n+1) times the frame duration; the mean is that time divided by 1. *)
Theorem X12_all_true_series (self : VideoParser)
    (interactions : list (string * list bool)) (key : string) (n : nat) :
  valid_fps (fps self) → valid_mapping interactions →
  (key, repeat true (S n)) ∈ interactions →
  ∃ statistics record,
    interactions_statistics self interactions = Ok statistics ∧
    statistics !! key = Some record ∧
    let whole := int_mul_float (Z.of_nat (S n)) (frame_duration (fps self)) in
    n_interactions record = VInt 1 ∧
    total_time record = VFloat whole ∧
    min_time record = VFloat whole ∧
    max_time record = VFloat whole ∧
    mean_time record = VFloat (PrimFloat.div whole (float_of_int 1)).
Proof.
  intros Hfps Hmap Hin.
  destruct (interactions_statistics_entry self interactions key (repeat true (S n)))
    as (statistics & Hrun & Hentry); [done..|].
  exists statistics, (run_metrics (frame_duration (fps self)) (repeat true (S n))).
  split; [done|]. split; [done|].
  unfold run_metrics. rewrite true_runs_last_run, true_frames_repeat_true.
  by repeat split.
Qed.

Lemma X12_witness :
  ∃ statistics record,
    interactions_statistics (sample_parser 30) [("td_ct", repeat true 4)] = Ok statistics ∧
    statistics !! "td_ct" = Some record ∧
    let whole := int_mul_float (Z.of_nat 4) (frame_duration 30) in
    n_interactions record = VInt 1 ∧
    total_time record = VFloat whole ∧
    min_time record = VFloat whole ∧
    max_time record = VFloat whole ∧
    mean_time record = VFloat (PrimFloat.div whole (float_of_int 1)).
Proof.
  apply (X12_all_true_series (sample_parser 30) [("td_ct", repeat true 4)] "td_ct" 3).
  - reflexivity.
  - split; by_compute.
  - by_compute.
Defined.

(** X13: [interactions_statistics] returns a record exactly when the
    frame rate is not zero and every key of the mapping is one of the
    three pair-keys; with a zero frame rate it raises
    [ZeroDivisionError] whatever the mapping. *)
Theorem X13_statistics_returns_iff (self : VideoParser)
    (interactions : list (string * list bool)) :
  ((∃ statistics, interactions_statistics self interactions = Ok statistics)
   ↔ valid_fps (fps self) ∧ Forall (fun k => k ∈ pair_keys) interactions.*1) ∧
  (¬ valid_fps (fps self) →
   interactions_statistics self interactions
   = Raise (ZeroDivisionError "float division by zero")).
Proof.
  unfold interactions_statistics, valid_fps, int_truediv_float.
  destruct (PrimFloat.eqb (fps self) PrimFloat.zero) eqn:Hfps;
    unfold mbind, result_bind, bind.
  - split; [|done]. split; [by intros [? ?]|by intros [? _]].
  - split; [|done]. rewrite statistics_loop_returns, pair_keys_initial. tauto.
Qed.

(** X14: the [KeyError] names the first key of the mapping, in insertion
    order, that is not a pair-key. *)
Theorem X14_first_unknown_key (self : VideoParser)
    (pre post : list (string * list bool)) (k : string) (l : list bool) :
  valid_fps (fps self) →
  Forall (fun key => key ∈ pair_keys) pre.*1 → k ∉ pair_keys →
  interactions_statistics self (pre ++ (k, l) :: post) = Raise (KeyError k).
Proof.
  intros Hfps Hpre Hk. unfold interactions_statistics.
  rewrite int_truediv_float_ok by done. unfold mbind, result_bind, bind.
  apply statistics_loop_first_missing.
  - by apply pair_keys_initial.
  - apply eq_None_not_Some. by rewrite initial_statistics_keys.
Qed.

Lemma X14_witness :
  interactions_statistics (sample_parser 30)
    ([("td_ct", sample_series)] ++ ("td", [true]) :: [("pm", [false])])
  = Raise (KeyError "td").
Proof.
  apply (X14_first_unknown_key (sample_parser 30)
           [("td_ct", sample_series)] [("pm", [false])] "td" [true]).
  - reflexivity.
  - by_compute.
  - by_compute.
Defined.

(** X15: a returned record has exactly the three pair-keys, and a
    pair-key the mapping does not mention still holds the type objects
    [int] and [float] it was initialised with. *)
Theorem X15_unmentioned_keys_keep_placeholders (self : VideoParser)
    (interactions : list (string * list bool)) :
  valid_fps (fps self) → Forall (fun k => k ∈ pair_keys) interactions.*1 →
  ∃ statistics,
    interactions_statistics self interactions = Ok statistics ∧
    (∀ k, is_Some (statistics !! k) ↔ k ∈ pair_keys) ∧
    (∀ k, k ∈ pair_keys → k ∉ interactions.*1 → statistics !! k = Some placeholder).
Proof.
  intros Hfps Hkeys. unfold interactions_statistics.
  rewrite int_truediv_float_ok by done. unfold mbind, result_bind, bind.
  destruct (statistics_loop_ok (frame_duration (fps self)) interactions initial_statistics)
    as (statistics & Hrun & Hout & _).
  { apply Forall_forall. by apply pair_keys_initial. }
  exists statistics. split; [done|]. split.
  - intros k. rewrite (statistics_loop_keys _ _ _ _ k Hrun).
    apply initial_statistics_keys.
  - intros k Hk Hfresh. rewrite (Hout k Hfresh).
    unfold pair_keys in Hk. rewrite !elem_of_cons, elem_of_nil in Hk.
    by destruct Hk as [->|[->|[->|[]]]].
Qed.

Lemma X15_witness :
  ∃ statistics,
    interactions_statistics (sample_parser 30) [("td_pm", sample_series)] = Ok statistics ∧
    (∀ k, is_Some (statistics !! k) ↔ k ∈ pair_keys) ∧
    (∀ k, k ∈ pair_keys → k ∉ [("td_pm", sample_series)].*1 →
          statistics !! k = Some placeholder).
Proof.
  apply (X15_unmentioned_keys_keep_placeholders (sample_parser 30)
           [("td_pm", sample_series)]).
  - reflexivity.
  - by_compute.
Defined.

(** X16: the table [interactions] returns can always be handed to
    [interactions_statistics]: with a nonzero frame rate the call
    returns, whatever the order of the items, and the episode count
    stored for a key is [None] when its series has no episode and the
    number of its runs otherwise. *)
Theorem X16_interactions_feed_statistics (self : VideoParser)
    (table : gmap string (list bool)) (items : list (string * list bool)) :
  valid_fps (fps self) → interactions self = Ok table → is_listing items table →
  ∃ statistics,
    interactions_statistics self items = Ok statistics ∧
    ∀ key series, (key, series) ∈ items →
      ∃ record,
        statistics !! key = Some record ∧
        n_interactions record
        = match true_runs series with
          | [] => VNone
          | _ :: _ => VInt (len (true_runs series))
          end.
Proof.
  intros Hfps Hrun [Hnodup Hlist].
  assert (valid_mapping items) as Hmap.
  { split; [done|]. apply Forall_fmap. eapply Forall_impl; [exact Hlist|].
    intros [k l] Hk. simpl in *.
    destruct (interactions_loop_keys _ _ _ _ k Hrun) as [Hempty|?]; [by eexists| |done].
    rewrite lookup_empty in Hempty. by destruct Hempty. }
  destruct Hmap as [_ Hkeys]. unfold interactions_statistics.
  rewrite int_truediv_float_ok by done. unfold mbind, result_bind, bind.
  destruct (statistics_loop_ok (frame_duration (fps self)) items initial_statistics)
    as (statistics & Hstat & _ & Hentry).
  { apply Forall_forall. by apply pair_keys_initial. }
  exists statistics. split; [done|]. intros key series Hin.
  eexists. split; [by apply Hentry|]. unfold run_metrics.
  by destruct (true_runs series).
Qed.

Lemma X16_witness :
  ∃ statistics,
    interactions_statistics (mk_VideoParser 2 30 6 sample_interaction_table)
      [("ct_pm", [false; true]); ("td_ct", [true; false]); ("td_pm", [false; false])]
    = Ok statistics ∧
    ∀ key series,
      (key, series)
        ∈ [("ct_pm", [false; true]); ("td_ct", [true; false]); ("td_pm", [false; false])] →
      ∃ record,
        statistics !! key = Some record ∧
        n_interactions record
        = match true_runs series with
          | [] => VNone
          | _ :: _ => VInt (len (true_runs series))
          end.
Proof.
  apply (X16_interactions_feed_statistics
           (mk_VideoParser 2 30 6 sample_interaction_table)
           (match interactions (mk_VideoParser 2 30 6 sample_interaction_table) with
            | Ok t => t
            | Raise _ => ∅
            end)).
  - reflexivity.
  - vm_compute. reflexivity.
  - split; [by_compute|]. repeat constructor.
Defined.

(** X17: at the end of the scan of a series the counter equals the
    length of the series, and the k-th pair of indices recorded delimits
    the k-th chunk collected: the slice of the series between the two
    indices is that chunk. *)
Theorem X17_scan_indices_delimit_chunks (series : list bool) :
  count_aux (scan_groups series) = len series ∧
  Forall2 (delimits series) (idxs (scan_groups series))
          (groups_of_interaction (scan_groups series)).
Proof.
  pose proof (scan_invariant (groupby series) [] (mk_scan [] [] 0) eq_refl) as Hinv.
  simpl in Hinv. rewrite groupby_concat in Hinv.
  destruct Hinv as (Hcount & new_idxs & new_groups & Hidxs & Hgroups & Hrel).
  split; [exact Hcount|]. unfold scan_groups. by rewrite Hidxs, Hgroups.
Qed.

Section ReducerCongruence.

Lemma metrics_runs_only (frame_time : float) (l1 l2 : list bool) :
  true_runs l1 = true_runs l2 → metrics frame_time l1 = metrics frame_time l2.
Proof.
  intros Hruns. rewrite !metrics_closed_form. unfold run_metrics.
  by rewrite !true_frames_sum_runs, Hruns.
Qed.

Lemma statistics_loop_runs_only (frame_time : float)
    (items1 items2 : list (string * list bool)) (statistics : gmap string stats) :
  Forall2 (fun a b : string * list bool => a.1 = b.1 ∧ true_runs a.2 = true_runs b.2)
          items1 items2 →
  statistics_loop frame_time items1 statistics
  = statistics_loop frame_time items2 statistics.
Proof.
  intros Hrel. revert statistics.
  induction Hrel as [|[k1 l1] [k2 l2] items1 items2 [Hk Hl] _ IH]; intros statistics;
    simpl in *; [done|].
  subst k2. rewrite (metrics_runs_only frame_time l1 l2 Hl).
  unfold mbind, result_bind, bind. destruct (metrics frame_time l2); [|done].
  by destruct (store statistics k1 a).
Qed.

Lemma valid_mapping_permutation (items1 items2 : list (string * list bool)) :
  items1 ≡ₚ items2 → valid_mapping items1 → valid_mapping items2.
Proof.
  intros Hperm [Hnodup Hkeys].
  assert (items1.*1 ≡ₚ items2.*1) as Hfst by by apply fmap_Permutation.
  split; by rewrite <- Hfst.
Qed.

End ReducerCongruence.

(** X18: the record stored under a key depends on that key's series and
    on the frame rate only: two mappings that give the key the same
    series store the same record under it, whatever their other items. *)
Theorem X18_record_depends_on_own_series (self : VideoParser)
    (items1 items2 : list (string * list bool)) (key : string) (series : list bool) :
  valid_fps (fps self) → valid_mapping items1 → valid_mapping items2 →
  (key, series) ∈ items1 → (key, series) ∈ items2 →
  ∃ statistics1 statistics2 record,
    interactions_statistics self items1 = Ok statistics1 ∧
    interactions_statistics self items2 = Ok statistics2 ∧
    statistics1 !! key = Some record ∧
    statistics2 !! key = Some record.
Proof.
  intros Hfps Hmap1 Hmap2 Hin1 Hin2.
  destruct (interactions_statistics_entry self items1 key series)
    as (statistics1 & Hrun1 & Hentry1); [done..|].
  destruct (interactions_statistics_entry self items2 key series)
    as (statistics2 & Hrun2 & Hentry2); [done..|].
  by exists statistics1, statistics2, (run_metrics (frame_duration (fps self)) series).
Qed.

Lemma X18_witness :
  ∃ statistics1 statistics2 record,
    interactions_statistics (sample_parser 30) [("td_ct", sample_series)] = Ok statistics1 ∧
    interactions_statistics (sample_parser 30)
      [("ct_pm", [true]); ("td_ct", sample_series); ("td_pm", [])] = Ok statistics2 ∧
    statistics1 !! "td_ct" = Some record ∧
    statistics2 !! "td_ct" = Some record.
Proof.
  apply (X18_record_depends_on_own_series (sample_parser 30)
           [("td_ct", sample_series)]
           [("ct_pm", [true]); ("td_ct", sample_series); ("td_pm", [])]
           "td_ct" sample_series).
  - reflexivity.
  - split; by_compute.
  - split; by_compute.
  - by_compute.
  - by_compute.
Defined.

(** X19: the result depends on each series through the lengths of its
    episodes only: series with the same runs of [True], in order, under
    the same keys give the same result, wherever the [False] frames lie. *)
Theorem X19_statistics_depend_on_runs_only (self : VideoParser)
    (items1 items2 : list (string * list bool)) :
  Forall2 (fun a b : string * list bool => a.1 = b.1 ∧ true_runs a.2 = true_runs b.2)
          items1 items2 →
  interactions_statistics self items1 = interactions_statistics self items2.
Proof.
  intros Hrel. unfold interactions_statistics, mbind, result_bind, bind.
  destruct (int_truediv_float 1 (fps self)); [|done].
  by apply statistics_loop_runs_only.
Qed.

Lemma X19_witness :
  interactions_statistics (sample_parser 30)
    [("td_ct", [true; true; false; true]); ("x", [false])]
  = interactions_statistics (sample_parser 30)
      [("td_ct", [false; true; true; false; false; false; true; false]); ("x", [])].
Proof.
  apply (X19_statistics_depend_on_runs_only (sample_parser 30)
           [("td_ct", [true; true; false; true]); ("x", [false])]
           [("td_ct", [false; true; true; false; false; false; true; false]); ("x", [])]).
  repeat constructor.
Defined.

(** X20: on a mapping over the pair-keys the result does not depend on
    the insertion order of the items. *)
Theorem X20_statistics_order_independent (self : VideoParser)
    (items1 items2 : list (string * list bool)) :
  valid_fps (fps self) → valid_mapping items1 → items1 ≡ₚ items2 →
  interactions_statistics self items1 = interactions_statistics self items2.
Proof.
  intros Hfps Hmap1 Hperm.
  pose proof (valid_mapping_permutation _ _ Hperm Hmap1) as Hmap2.
  destruct Hmap1 as [Hnd1 Hkeys1]. destruct Hmap2 as [Hnd2 Hkeys2].
  unfold interactions_statistics. rewrite int_truediv_float_ok by done.
  unfold mbind, result_bind, bind.
  destruct (statistics_loop_ok (frame_duration (fps self)) items1 initial_statistics)
    as (st1 & -> & Hout1 & Hin1).
  { apply Forall_forall. by apply pair_keys_initial. }
  destruct (statistics_loop_ok (frame_duration (fps self)) items2 initial_statistics)
    as (st2 & -> & Hout2 & Hin2).
  { apply Forall_forall. by apply pair_keys_initial. }
  f_equal. apply map_eq. intros k.
  destruct (decide (k ∈ items1.*1)) as [Hk|Hk].
  - apply list_elem_of_fmap in Hk as ([k' l] & -> & Hkl). simpl.
    rewrite (Hin1 Hnd1 _ _ Hkl). symmetry. apply (Hin2 Hnd2). by rewrite <- Hperm.
  - rewrite (Hout1 k Hk). symmetry. apply Hout2. by rewrite <- Hperm.
Qed.

Lemma X20_witness :
  interactions_statistics (sample_parser 30)
    [("td_ct", sample_series); ("ct_pm", [true; false])]
  = interactions_statistics (sample_parser 30)
      [("ct_pm", [true; false]); ("td_ct", sample_series)].
Proof.
  apply (X20_statistics_order_independent (sample_parser 30)
           [("td_ct", sample_series); ("ct_pm", [true; false])]
           [("ct_pm", [true; false]); ("td_ct", sample_series)]).
  - reflexivity.
  - split; by_compute.
  - apply perm_swap.
Defined.
